(** * EduVerse backend: invoices, payments and the settlement status

    A shallow embedding of the invoicing part of [main.py] together with
    the models of [schemas.py] it uses, followed by the properties of the
    settlement status that [record_payment] derives.

    Python's [float] is IEEE 754 binary64; it is modelled by Rocq's
    primitive floats, which are the same format with the same
    round-to-nearest-even arithmetic, so [+], [-], [*], [/], [>=] and [>]
    below are the operations the interpreter performs.  Decimal literals
    such as [1e-2] denote the closest binary64 value, as in Python. *)

From Stdlib Require Import ZArith NArith List String Ascii Bool Floats Lia.
From Stdlib Require Import Permutation Sorted.
Import ListNotations.

#[local] Set Warnings "-inexact-float".
#[local] Open Scope string_scope.

(** ** Python values *)

Module Python.

(** [sum(xs)]: start from [0] and add the items from left to right.  The
    integer start value [0] is converted to [0.0] by the first addition.
    (From version 3.12 on CPython adds floats with a compensated sum,
    which can differ from the plain sum in the last place; every concrete
    ledger below has the same total under both.) *)
Definition sum (xs : list float) : float :=
  fold_left PrimFloat.add xs 0%float.

(** [x or default] on an [Optional[str]]: [None] and the empty string are
    falsy. *)
Definition or_str (x : option string) (default : string) : string :=
  match x with
  | Some s => if String.eqb s "" then default else s
  | None => default
  end.

(** A [bytes] value is a sequence of octets, as a Rocq string is. *)
Definition bytes := string.

End Python.

(** Exceptions that can leave a handler. *)
Inductive Exception : Type :=
| HTTPException (status_code : nat) (detail : string)
| ValidationError                      (* pydantic: a model constructor refused its arguments *)
| DatabaseUnavailable.                 (* the store handle is unset *)

Inductive Result (A : Type) : Type :=
| Return (a : A)
| Raise (e : Exception).
Arguments Return {A} a.
Arguments Raise {A} e.

(** ** schemas.py *)

Module Schemas.

(** [Literal[...]] on a string field: the value must be one of the
    listed strings. *)
Definition Literal (allowed : list string) (s : string) : bool :=
  existsb (String.eqb s) allowed.

Record InvoiceItem := {
  item_title : string;
  item_amount : float
}.

(** [Invoice.status]: [Literal["unpaid", "partially_paid", "paid"]]. *)
Inductive Status := unpaid | partially_paid | paid.

Record Invoice := {
  inv_institution_id : string;
  inv_student_id : string;
  inv_currency : string;
  inv_items : list InvoiceItem;
  inv_gst_percent : float;
  inv_status : Status;
  inv_due_date : option string;
  inv_metadata : list (string * string)
}.

(** Two invoices that agree on every field except possibly [status]. *)
Definition same_but_status (a b : Invoice) : Prop :=
  inv_institution_id a = inv_institution_id b
  /\ inv_student_id a = inv_student_id b
  /\ inv_currency a = inv_currency b
  /\ inv_items a = inv_items b
  /\ inv_gst_percent a = inv_gst_percent b
  /\ inv_due_date a = inv_due_date b
  /\ inv_metadata a = inv_metadata b.

Definition currencies := ["INR"; "USD"].

(** The constructor call [Invoice(institution_id=..., ..., due_date=...)]
    of [create_invoice]: [metadata] takes its default, the empty dict,
    and [currency] is validated against its literal type. *)
Definition Invoice_new (institution_id student_id currency : string)
    (items : list InvoiceItem) (gst_percent : float) (status : Status)
    (due_date : option string) : Result Invoice :=
  if Literal currencies currency then
    Return {| inv_institution_id := institution_id;
              inv_student_id := student_id;
              inv_currency := currency;
              inv_items := items;
              inv_gst_percent := gst_percent;
              inv_status := status;
              inv_due_date := due_date;
              inv_metadata := [] |}
  else Raise ValidationError.

Record Payment := {
  pay_institution_id : string;
  pay_invoice_id : string;
  pay_amount : float;
  pay_method : string;
  pay_provider : option string;
  pay_txn_ref : option string
}.

Definition methods := ["upi"; "wallet"; "card"; "cash"].
Definition providers := ["razorpay"; "phonepe"; "stripe"; "manual"].

(** The constructor call [Payment(...)] of [record_payment].  The only
    constraints of the model are the two literal types; [amount] is a
    plain [float]. *)
Definition Payment_new (institution_id invoice_id : string) (amount : float)
    (method : string) (provider txn_ref : option string) : Result Payment :=
  if Literal methods method
     && match provider with
        | Some p => Literal providers p
        | None => true
        end
  then
    Return {| pay_institution_id := institution_id;
              pay_invoice_id := invoice_id;
              pay_amount := amount;
              pay_method := method;
              pay_provider := provider;
              pay_txn_ref := txn_ref |}
  else Raise ValidationError.

End Schemas.
Import Schemas.

(** ** bson.ObjectId *)

Module Bson.

(** An ObjectId is its binary value (twelve octets when generated). *)
Definition ObjectId := Python.bytes.

Definition hex_value (c : ascii) : option N :=
  let n := N_of_ascii c in
  if ((48 <=? n) && (n <=? 57))%N then Some (n - 48)%N
  else if ((97 <=? n) && (n <=? 102))%N then Some (n - 87)%N
  else if ((65 <=? n) && (n <=? 70))%N then Some (n - 55)%N
  else None.

(** ASCII white space as [bytes.fromhex] skips it: space and
    [\t \n \v \f \r]. *)
Definition is_space (c : ascii) : bool :=
  let n := N_of_ascii c in
  ((n =? 32) || ((9 <=? n) && (n <=? 13)))%N.

(** [bytes.fromhex(s)]: two hexadecimal digits per octet, white space
    being skipped before an octet; [None] stands for [ValueError]. *)
Fixpoint fromhex (s : string) : option Python.bytes :=
  match s with
  | EmptyString => Some EmptyString
  | String c rest =>
      if is_space c then fromhex rest
      else
        match hex_value c, rest with
        | Some hi, String c' rest' =>
            match hex_value c', fromhex rest' with
            | Some lo, Some tl => Some (String (ascii_of_N (16 * hi + lo)) tl)
            | _, _ => None
            end
        | _, _ => None
        end
  end.

(** [ObjectId(s)] for a [str]: the string must have 24 characters and be
    accepted by [bytes.fromhex]; [None] stands for [InvalidId]. *)
Definition ObjectId_of_str (s : string) : option ObjectId :=
  if (String.length s =? 24)%nat then fromhex s else None.

Definition hex_digit (n : N) : ascii :=
  if (n <? 10)%N then ascii_of_N (48 + n) else ascii_of_N (87 + n).

(** [str(oid)]: the lower-case hexadecimal form. *)
Fixpoint str (oid : ObjectId) : string :=
  match oid with
  | EmptyString => EmptyString
  | String c rest =>
      let n := N_of_ascii c in
      String (hex_digit (n / 16)) (String (hex_digit (n mod 16)) (str rest))
  end.

(** The [k] low-order octets of [n], most significant first. *)
Fixpoint octets (k : nat) (n : N) : Python.bytes :=
  match k with
  | O => EmptyString
  | S k' => (octets k' (n / 256) ++ String (ascii_of_N (n mod 256)) EmptyString)%string
  end.

End Bson.

(** ** database.py and the collections behind [db] *)

Module Database.

(** A stored document: the dumped model under a store-generated [_id]. *)
Record Document (A : Type) := {
  _id : Bson.ObjectId;
  doc : A
}.
Arguments _id {A} d.
Arguments doc {A} d.

(** The collections this part of the program touches, each in insertion
    order, and the number of identifiers generated so far. *)
Record Db := {
  invoice : list (Document Invoice);
  payment : list (Document Payment);
  generated : N
}.

(** The module-level handle [db]: [None] when no database is configured. *)
Definition Handle := option Db.

(** Handlers run against the handle; an exception leaves the writes made
    before it in place (there is no transaction). *)
Definition M (A : Type) : Type := Handle -> Result A * Handle.

Definition ret {A} (a : A) : M A := fun h => (Return a, h).
Definition bind {A B} (m : M A) (k : A -> M B) : M B :=
  fun h =>
    match m h with
    | (Return a, h') => k a h'
    | (Raise e, h') => (Raise e, h')
    end.
Definition lift {A} (r : Result A) : M A := fun h => (r, h).
Definition get : M Handle := fun h => (Return h, h).
Definition put (h' : Handle) : M unit := fun _ => (Return tt, h').

(** Modelled from the spec: [database.py] is not among the sources.  The
    identifier the store generates on creation: a twelve-octet value
    that no earlier insertion was given. *)
Definition fresh (d : Db) : Bson.ObjectId := Bson.octets 12 (generated d).

Definition insert_invoice (d : Db) (inv : Invoice) : Db :=
  {| invoice := invoice d ++ [{| _id := fresh d; doc := inv |}];
     payment := payment d;
     generated := N.succ (generated d) |}.

Definition insert_payment (d : Db) (pay : Payment) : Db :=
  {| invoice := invoice d;
     payment := payment d ++ [{| _id := fresh d; doc := pay |}];
     generated := N.succ (generated d) |}.

(** Modelled from the spec: [database.py] is not among the sources.
    [create_document("invoice", inv)] is the repository's
    [insert(collection, record) -> id]: the record is appended to the
    collection under a store-generated identifier, which is returned in
    its string form.  Without a store the insertion fails. *)
Definition create_document_invoice (inv : Invoice) : M string :=
  fun h =>
    match h with
    | Some d => (Return (Bson.str (fresh d)), Some (insert_invoice d inv))
    | None => (Raise DatabaseUnavailable, None)
    end.

(** Modelled from the spec: [database.py] is not among the sources.
    [create_document("payment", pay)], as above. *)
Definition create_document_payment (pay : Payment) : M string :=
  fun h =>
    match h with
    | Some d => (Return (Bson.str (fresh d)), Some (insert_payment d pay))
    | None => (Raise DatabaseUnavailable, None)
    end.

(** [db["invoice"].find_one({"_id": oid})]: the first document with that
    identifier, if any. *)
Definition find_one_invoice (d : Db) (oid : Bson.ObjectId)
  : option (Document Invoice) :=
  find (fun x => String.eqb (_id x) oid) (invoice d).

(** [db["payment"].find({"invoice_id": s})]: the documents whose
    [invoice_id] field is the string [s], in the collection's order. *)
Definition find_payment (d : Db) (s : string) : list (Document Payment) :=
  filter (fun x => String.eqb (pay_invoice_id (doc x)) s) (payment d).

(** What a status write aimed at the documents whose [_id] is [target] may
    do to a document [x], giving [x']: the [_id] and every field but
    [status] stay, and a document that is not aimed at stays as a whole. *)
Definition status_write (target : option Bson.ObjectId)
    (x x' : Document Invoice) : Prop :=
  _id x' = _id x
  /\ same_but_status (doc x) (doc x')
  /\ (target <> Some (_id x) -> x' = x).

Definition set_status (st : Status) (inv : Invoice) : Invoice :=
  {| inv_institution_id := inv_institution_id inv;
     inv_student_id := inv_student_id inv;
     inv_currency := inv_currency inv;
     inv_items := inv_items inv;
     inv_gst_percent := inv_gst_percent inv;
     inv_status := st;
     inv_due_date := inv_due_date inv;
     inv_metadata := inv_metadata inv |}.

Fixpoint update_first (oid : Bson.ObjectId) (st : Status)
    (l : list (Document Invoice)) : list (Document Invoice) :=
  match l with
  | [] => []
  | x :: rest =>
      if String.eqb (_id x) oid
      then {| _id := _id x; doc := set_status st (doc x) |} :: rest
      else x :: update_first oid st rest
  end.

(** [db["invoice"].update_one({"_id": oid}, {"$set": {"status": st}})]:
    the first document with that identifier gets the field [status]
    set; nothing else is written. *)
Definition update_one_invoice (oid : Bson.ObjectId) (st : Status) (d : Db) : Db :=
  {| invoice := update_first oid st (invoice d);
     payment := payment d;
     generated := generated d |}.

End Database.
Import Database.

(** ** main.py *)

Module Main.

Declare Scope handler_scope.
Delimit Scope handler_scope with handler.
Notation "x <- m ;; k" := (bind m (fun x => k))
  (at level 100, m at next level, right associativity) : handler_scope.
#[local] Open Scope handler_scope.
#[local] Open Scope float_scope.

Record IdResponse := { id : string }.

Definition to_oid (id_str : string) : Result Bson.ObjectId :=
  match Bson.ObjectId_of_str id_str with
  | Some oid => Return oid
  | None => Raise (HTTPException 400 "Invalid id")
  end.

Record CreateInvoiceRequest := {
  ci_institution_id : string;
  ci_student_id : string;
  ci_items : list InvoiceItem;
  ci_gst_percent : float;
  ci_currency : option string;
  ci_due_date : option string
}.

Definition create_invoice (payload : CreateInvoiceRequest) : M IdResponse :=
  inv <- lift (Invoice_new
                 (ci_institution_id payload)
                 (ci_student_id payload)
                 (Python.or_str (ci_currency payload) "INR")
                 (ci_items payload)
                 (ci_gst_percent payload)
                 unpaid
                 (ci_due_date payload)) ;;
  inv_id <- create_document_invoice inv ;;
  ret {| id := inv_id |}.

Record RecordPaymentRequest := {
  rp_institution_id : string;
  rp_invoice_id : string;
  rp_amount : float;
  rp_method : string;
  rp_provider : option string;
  rp_txn_ref : option string
}.

(** Lines 204 to 208 of [record_payment]: the status of the invoice
    document [inv] given the payment documents [ps] that the query for
    its payments returned. *)
Definition paid_total (ps : list (Document Payment)) : float :=
  Python.sum (map (fun p => pay_amount (doc p)) ps).

Definition items_total (inv : Invoice) : float :=
  Python.sum (map item_amount (inv_items inv)).

Definition gst (inv : Invoice) : float :=
  inv_gst_percent inv * items_total inv / 100.

Definition due (inv : Invoice) : float :=
  items_total inv + gst inv.

Definition status_of (inv : Invoice) (ps : list (Document Payment)) : Status :=
  if due inv - 1e-2 <=? paid_total ps then paid
  else if 0 <? paid_total ps then partially_paid
  else unpaid.

(** The place of a status in the order unpaid, partially_paid, paid. *)
Definition rank (st : Status) : nat :=
  match st with
  | unpaid => 0
  | partially_paid => 1
  | paid => 2
  end.

(** A payment document whose amount is at least zero. *)
Definition nonnegative (p : Document Payment) : Prop :=
  (0 <=? pay_amount (doc p)) = true.

Definition record_payment (payload : RecordPaymentRequest) : M IdResponse :=
  pay <- lift (Payment_new
                 (rp_institution_id payload)
                 (rp_invoice_id payload)
                 (rp_amount payload)
                 (rp_method payload)
                 (rp_provider payload)
                 (rp_txn_ref payload)) ;;
  pid <- create_document_payment pay ;;
  db <- get ;;
  _ <- match db with
       | Some d =>
           oid <- lift (to_oid (rp_invoice_id payload)) ;;
           match find_one_invoice d oid with
           | Some inv =>
               let status :=
                 status_of (doc inv) (find_payment d (rp_invoice_id payload)) in
               put (Some (update_one_invoice (_id inv) status d))
           | None => ret tt
           end
       | None => ret tt
       end ;;
  ret {| id := pid |}.

End Main.
Import Main.

(** ** The settlement engine as the specification words it *)

Module Settlement.

#[local] Open Scope float_scope.

(** The tolerance of the status decision, 0.01 currency units. *)
Definition epsilon : float := 0.01.

Definition items_total (invoice : Invoice) : float :=
  Python.sum (map item_amount (inv_items invoice)).

Definition tax_amount (invoice : Invoice) : float :=
  inv_gst_percent invoice * items_total invoice / 100.

Definition amount_due (invoice : Invoice) : float :=
  items_total invoice + tax_amount invoice.

Definition amount_paid (all_payments_for_invoice : list Payment) : float :=
  Python.sum (map pay_amount all_payments_for_invoice).

(** [x >= y] and [x > y]. *)
Definition geb (x y : float) : bool := y <=? x.
Definition gtb (x y : float) : bool := y <? x.

(** [recompute_status(invoice, all_payments_for_invoice)]: the first
    condition that holds decides. *)
Definition recompute_status (invoice : Invoice)
    (all_payments_for_invoice : list Payment) : Status :=
  if geb (amount_paid all_payments_for_invoice) (amount_due invoice - epsilon)
  then paid
  else if gtb (amount_paid all_payments_for_invoice) 0
  then partially_paid
  else unpaid.

(** "The complete, current set of payments whose invoice reference
    matches this invoice's identifier": a payment references the invoice
    whose identifier its [invoice_id] denotes, however the identifier is
    spelled. *)
Definition references (oid : Bson.ObjectId) (p : Payment) : bool :=
  match Bson.ObjectId_of_str (pay_invoice_id p) with
  | Some o => String.eqb o oid
  | None => false
  end.

Definition payments_referencing (d : Db) (oid : Bson.ObjectId) : list Payment :=
  filter (references oid) (map doc (payment d)).

End Settlement.

(** ** Sample data *)

Module Sample.

#[local] Open Scope float_scope.

Definition empty : Db := {| invoice := []; payment := []; generated := 0 |}.

Definition invoice_request (amount gst_percent : float) : CreateInvoiceRequest :=
  {| ci_institution_id := "inst-a";
     ci_student_id := "stud-1";
     ci_items := [{| item_title := "Tuition"; item_amount := amount |}];
     ci_gst_percent := gst_percent;
     ci_currency := None;
     ci_due_date := None |}.

Definition no_items_request (gst_percent : float) : CreateInvoiceRequest :=
  {| ci_institution_id := "inst-a";
     ci_student_id := "stud-1";
     ci_items := [];
     ci_gst_percent := gst_percent;
     ci_currency := None;
     ci_due_date := None |}.

(** The store after one [create_invoice] on the empty store. *)
Definition store_with (rq : CreateInvoiceRequest) : Handle :=
  snd (create_invoice rq (Some empty)).

(** An identifier of the right form that no document of [store_with] has. *)
Definition other_id : string := "ffffffffffffffffffffffff".

(** The identifier the first insertion into the empty store is given. *)
Definition first_id : string := "000000000000000000000000".

Definition payment_request (institution_id invoice_id : string) (amount : float)
  : RecordPaymentRequest :=
  {| rp_institution_id := institution_id;
     rp_invoice_id := invoice_id;
     rp_amount := amount;
     rp_method := "upi";
     rp_provider := None;
     rp_txn_ref := None |}.

(** Record payments of the given amounts, in order, against [first_id]. *)
Fixpoint pay_all (amounts : list float) (h : Handle) : Handle :=
  match amounts with
  | [] => h
  | a :: rest => pay_all rest (snd (record_payment (payment_request "inst-a" first_id a) h))
  end.

Definition statuses (h : Handle) : list Status :=
  match h with
  | Some d => map (fun x => inv_status (doc x)) (invoice d)
  | None => []
  end.

(** An invoice document with one item, and a payment document. *)
Definition invoice_of (amount gst_percent : float) : Invoice :=
  {| inv_institution_id := "inst-a";
     inv_student_id := "stud-1";
     inv_currency := "INR";
     inv_items := [{| item_title := "Tuition"; item_amount := amount |}];
     inv_gst_percent := gst_percent;
     inv_status := unpaid;
     inv_due_date := None;
     inv_metadata := [] |}.

(** An invoice document without items. *)
Definition no_items (gst_percent : float) : Invoice :=
  {| inv_institution_id := "inst-a";
     inv_student_id := "stud-1";
     inv_currency := "INR";
     inv_items := [];
     inv_gst_percent := gst_percent;
     inv_status := unpaid;
     inv_due_date := None;
     inv_metadata := [] |}.

Definition payment_of (amount : float) : Document Payment :=
  {| _id := "";
     doc := {| pay_institution_id := "inst-a";
               pay_invoice_id := first_id;
               pay_amount := amount;
               pay_method := "upi";
               pay_provider := None;
               pay_txn_ref := None |} |}.

(** Four amounts whose float sum depends on the order of addition: in
    this order the three small amounts are each absorbed by the first;
    added first, they carry into its last bit. *)
Definition amounts : list float := [0x1p107; 0x1p54; 1.00006103515625; 2].

(** An invoice due the larger of the two sums, one unit in the last place
    above [0x1p107]. *)
Definition large : Db := insert_invoice empty (invoice_of 0x1.0000000000001p107 0).

(** The store holding one invoice for 1000 plus 18 percent, due 1180. *)
Definition tuition : Db := insert_invoice empty (invoice_of 1000 18).

(** A store whose invoice, due 1180, has an identifier with a letter in
    its string form, and which holds a payment of 1180 recorded under
    the upper-case spelling of that identifier. *)
Definition lettered : Db :=
  {| invoice := [{| _id := Bson.octets 12 10; doc := invoice_of 1000 18 |}];
     payment := [{| _id := Bson.octets 12 11;
                    doc := {| pay_institution_id := "inst-a";
                              pay_invoice_id := "00000000000000000000000A";
                              pay_amount := 1180;
                              pay_method := "upi";
                              pay_provider := None;
                              pay_txn_ref := None |} |}];
     generated := 12 |}.

(** The store holding one invoice without items and without tax. *)
Definition itemless : Db := insert_invoice empty (no_items 0).

(** The store holding one invoice due exactly 100. *)
Definition hundred : Db := insert_invoice empty (invoice_of 100 0).

End Sample.

(** ** The order of floats *)

Module FloatOrder.

(** The position of a float on the extended line: sign class first, then
    exponent and mantissa, both negated for negative numbers. *)
Definition key (x : spec_float) : option (Z * Z * Z) :=
  match x with
  | S754_nan => None
  | S754_infinity true => Some ((-2)%Z, 0%Z, 0%Z)
  | S754_infinity false => Some (2%Z, 0%Z, 0%Z)
  | S754_zero _ => Some (0%Z, 0%Z, 0%Z)
  | S754_finite true m e => Some ((-1)%Z, (- e)%Z, Zneg m)
  | S754_finite false m e => Some (1%Z, e, Zpos m)
  end.

Definition lex (k1 k2 : Z * Z * Z) : comparison :=
  let '(a1, b1, c1) := k1 in
  let '(a2, b2, c2) := k2 in
  match (a1 ?= a2)%Z with
  | Eq => match (b1 ?= b2)%Z with
          | Eq => (c1 ?= c2)%Z
          | c => c
          end
  | c => c
  end.

Definition lex_le (k1 k2 : Z * Z * Z) : Prop :=
  let '(a1, b1, c1) := k1 in
  let '(a2, b2, c2) := k2 in
  (a1 < a2 \/ (a1 = a2 /\ (b1 < b2 \/ (b1 = b2 /\ c1 <= c2))))%Z.

Definition lex_lt (k1 k2 : Z * Z * Z) : Prop :=
  let '(a1, b1, c1) := k1 in
  let '(a2, b2, c2) := k2 in
  (a1 < a2 \/ (a1 = a2 /\ (b1 < b2 \/ (b1 = b2 /\ c1 < c2))))%Z.

(** [x <= y] and [x < y] on floats, read on keys. *)
Definition le (x y : float) : Prop :=
  exists k1 k2, key (Prim2SF x) = Some k1 /\ key (Prim2SF y) = Some k2 /\ lex_le k1 k2.
Definition lt (x y : float) : Prop :=
  exists k1 k2, key (Prim2SF x) = Some k1 /\ key (Prim2SF y) = Some k2 /\ lex_lt k1 k2.

End FloatOrder.

(** ** Rounding, as the specification of the float operations has it *)

Module RoundingDefs.
#[local] Open Scope Z_scope.

(** The exponent of the last place of a binary64 number whose first place
    has exponent [e]. *)
Definition fexp64 (e : Z) : Z := fexp prec emax e.

(** The last step of [binary_round_aux]. *)
Definition finish (s : bool) (m e : Z) : spec_float :=
  match m with
  | Z0 => S754_zero s
  | Zpos p => if e <=? emax - prec then S754_finite s p e else S754_infinity s
  | Zneg _ => S754_nan
  end.

End RoundingDefs.

(** ** main.py, the listing of invoices *)

Module Listing.
#[local] Open Scope list_scope.

(** A filter document of equalities on string-valued fields, as the
    handlers build it: a document matches when each listed field is
    present and holds the listed value. *)
Definition Query := list (string * string).

(** The string-valued fields of a stored model, by name; [None] for a
    field that is absent, null or not a string. *)
Class Fields (A : Type) := field : A -> string -> option string.

Definition matches {A} `{Fields A} (q : Query) (x : A) : bool :=
  forallb (fun kv => match field x (fst kv) with
                     | Some v => String.eqb v (snd kv)
                     | None => false
                     end) q.

(** [if x:] on an [Optional[str]]: the key is added to the filter only
    for a value that is neither [None] nor empty. *)
Definition when_given (key : string) (x : option string) : Query :=
  match x with
  | Some s => if String.eqb s "" then [] else [(key, s)]
  | None => []
  end.

#[export] Instance Invoice_fields : Fields Invoice :=
  fun inv key =>
    if String.eqb key "institution_id" then Some (inv_institution_id inv)
    else if String.eqb key "student_id" then Some (inv_student_id inv)
    else if String.eqb key "currency" then Some (inv_currency inv)
    else if String.eqb key "status" then
      Some match inv_status inv with
           | unpaid => "unpaid"
           | partially_paid => "partially_paid"
           | paid => "paid"
           end
    else if String.eqb key "due_date" then inv_due_date inv
    else None.

(** Modelled from the spec: [database.py] is not among the sources.
    [get_documents("invoice", q)] is the repository's
    [find(collection, filter) -> sequence of records]: the documents of
    the collection that match the filter, in the collection's order.
    Without a store the query fails. *)
Definition get_documents_invoice (q : Query) : M (list (Document Invoice)) :=
  fun h =>
    match h with
    | Some d => (Return (filter (fun x => matches q (doc x)) (invoice d)), h)
    | None => (Raise DatabaseUnavailable, None)
    end.

Definition list_invoices (institution_id : string) (student_id : option string)
  : M (list (Document Invoice)) :=
  let q := [("institution_id", institution_id)]
           ++ when_given "student_id" student_id in
  get_documents_invoice q.

End Listing.
Import Listing.

(** ** schemas.py and main.py: users, attendance and notifications *)

Module Campus.
#[local] Open Scope list_scope.

(** [User.role]. *)
Inductive Role := admin | teacher | student | parent.

Definition Role_str (r : Role) : string :=
  match r with
  | admin => "admin"
  | teacher => "teacher"
  | student => "student"
  | parent => "parent"
  end.

(** A validated [User]; [email] has passed [EmailStr]. *)
Record User := {
  u_institution_id : string;
  u_role : Role;
  u_name : string;
  u_email : option string;
  u_phone : option string;
  u_password : option string;
  u_linked_student_id : option string
}.

(** [Attendance.status] and [Attendance.mode]. *)
Inductive Presence := present | absent | late.
Inductive Mode := qr | gps | manual.

Definition Presence_str (s : Presence) : string :=
  match s with
  | present => "present"
  | absent => "absent"
  | late => "late"
  end.

Definition Mode_str (m : Mode) : string :=
  match m with
  | qr => "qr"
  | gps => "gps"
  | manual => "manual"
  end.

Record Attendance := {
  a_institution_id : string;
  a_student_id : string;
  a_batch_id : option string;
  a_date : string;
  a_status : Presence;
  a_mode : Mode;
  a_gps_lat : option float;
  a_gps_lng : option float;
  a_notes : option string
}.

(** [Notification.channel] and [Notification.status]. *)
Inductive Channel := sms | whatsapp | email | push.
Inductive Delivery := queued | sent | failed.

Record Notification := {
  n_institution_id : string;
  n_user_id : string;
  n_channel : Channel;
  n_template : string;
  n_payload : list (string * string);
  n_status : Delivery
}.

#[export] Instance User_fields : Fields User :=
  fun u key =>
    if String.eqb key "institution_id" then Some (u_institution_id u)
    else if String.eqb key "role" then Some (Role_str (u_role u))
    else if String.eqb key "name" then Some (u_name u)
    else if String.eqb key "email" then u_email u
    else if String.eqb key "phone" then u_phone u
    else if String.eqb key "password" then u_password u
    else if String.eqb key "linked_student_id" then u_linked_student_id u
    else None.

#[export] Instance Attendance_fields : Fields Attendance :=
  fun a key =>
    if String.eqb key "institution_id" then Some (a_institution_id a)
    else if String.eqb key "student_id" then Some (a_student_id a)
    else if String.eqb key "batch_id" then a_batch_id a
    else if String.eqb key "date" then Some (a_date a)
    else if String.eqb key "status" then Some (Presence_str (a_status a))
    else if String.eqb key "mode" then Some (Mode_str (a_mode a))
    else if String.eqb key "notes" then a_notes a
    else None.

(** The collections these handlers touch, each in insertion order, and
    the number of identifiers generated so far. *)
Record Store := {
  user : list (Document User);
  attendance : list (Document Attendance);
  notification : list (Document Notification);
  made : N
}.

(** The handle [db] and the handlers that run against it. *)
Definition Handle := option Store.
Definition Handler (A : Type) : Type := Handle -> Result A * Handle.

Definition unit_ {A} (a : A) : Handler A := fun h => (Return a, h).
Definition fail {A} (e : Exception) : Handler A := fun h => (Raise e, h).
Definition and_then {A B} (m : Handler A) (k : A -> Handler B) : Handler B :=
  fun h =>
    match m h with
    | (Return a, h') => k a h'
    | (Raise e, h') => (Raise e, h')
    end.
Definition handle : Handler Handle := fun h => (Return h, h).

Declare Scope campus_scope.
Notation "x <- m ;; k" := (and_then m (fun x => k))
  (at level 100, m at next level, right associativity) : campus_scope.
#[local] Open Scope campus_scope.

Definition next_id (d : Store) : Bson.ObjectId := Bson.octets 12 (made d).

(** Modelled from the spec: [database.py] is not among the sources.
    [create_document(collection, record)] for the three collections, as
    for invoices and payments: the record is appended under a
    store-generated identifier, whose string form is returned; without a
    store the insertion fails. *)
Definition create_document_user (u : User) : Handler string :=
  fun h =>
    match h with
    | Some d =>
        (Return (Bson.str (next_id d)),
         Some {| user := user d ++ [{| _id := next_id d; doc := u |}];
                 attendance := attendance d;
                 notification := notification d;
                 made := N.succ (made d) |})
    | None => (Raise DatabaseUnavailable, None)
    end.

Definition create_document_attendance (a : Attendance) : Handler string :=
  fun h =>
    match h with
    | Some d =>
        (Return (Bson.str (next_id d)),
         Some {| user := user d;
                 attendance := attendance d ++ [{| _id := next_id d; doc := a |}];
                 notification := notification d;
                 made := N.succ (made d) |})
    | None => (Raise DatabaseUnavailable, None)
    end.

Definition create_document_notification (n : Notification) : Handler string :=
  fun h =>
    match h with
    | Some d =>
        (Return (Bson.str (next_id d)),
         Some {| user := user d;
                 attendance := attendance d;
                 notification := notification d ++ [{| _id := next_id d; doc := n |}];
                 made := N.succ (made d) |})
    | None => (Raise DatabaseUnavailable, None)
    end.

(** Modelled from the spec: [database.py] is not among the sources.
    [get_documents(collection, q)], as for invoices. *)
Definition get_documents_user (q : Query) : Handler (list (Document User)) :=
  fun h =>
    match h with
    | Some d => (Return (filter (fun x => matches q (doc x)) (user d)), h)
    | None => (Raise DatabaseUnavailable, None)
    end.

Definition get_documents_attendance (q : Query) : Handler (list (Document Attendance)) :=
  fun h =>
    match h with
    | Some d => (Return (filter (fun x => matches q (doc x)) (attendance d)), h)
    | None => (Raise DatabaseUnavailable, None)
    end.

(** [db["user"].find_one(q)]: the first matching document, if any. *)
Definition find_one_user (d : Store) (q : Query) : option (Document User) :=
  find (fun x => matches q (doc x)) (user d).

(** [payload.email] as a condition and as a filter value: [None] and the
    empty string are falsy. *)
Definition given (x : option string) : option string :=
  match x with
  | Some s => if String.eqb s "" then None else Some s
  | None => None
  end.

Definition create_user (payload : User) : Handler IdResponse :=
  db <- handle ;;
  match db with
  | None => fail (HTTPException 500 "Database not available")
  | Some d =>
      _ <- match given (u_email payload) with
           | Some e =>
               match find_one_user d [("email", e);
                                      ("institution_id", u_institution_id payload)] with
               | Some existing =>
                   fail (HTTPException 409 "Email already exists in institution")
               | None => unit_ tt
               end
           | None => unit_ tt
           end ;;
      uid <- create_document_user payload ;;
      unit_ {| id := uid |}
  end.

Definition list_users (institution_id role : option string)
  : Handler (list (Document User)) :=
  let filt := when_given "institution_id" institution_id
              ++ when_given "role" role in
  get_documents_user filt.

Definition mark_attendance (payload : Attendance) : Handler IdResponse :=
  aid <- create_document_attendance payload ;;
  db <- handle ;;
  _ <- match db, a_status payload with
       | Some _, absent =>
           let notif :=
             {| n_institution_id := a_institution_id payload;
                n_user_id := a_student_id payload;
                n_channel := push;
                n_template := "absence_alert";
                n_payload := [("date", a_date payload)];
                n_status := queued |} in
           _ <- create_document_notification notif ;;
           unit_ tt
       | _, _ => unit_ tt
       end ;;
  unit_ {| id := aid |}.

Definition list_attendance (institution_id : string)
    (student_id date : option string) : Handler (list (Document Attendance)) :=
  let q := [("institution_id", institution_id)]
           ++ when_given "student_id" student_id
           ++ when_given "date" date in
  get_documents_attendance q.

(** One document of the aggregation's result. *)
Record Point := {
  point_id : string;
  point_present : nat;
  point_total : nat
}.

(** Insertion into, and sorting of, a list of strings in ascending order
    of their characters' codes. *)
Fixpoint insert (x : string) (l : list string) : list string :=
  match l with
  | [] => [x]
  | y :: rest => if String.leb x y then x :: l else y :: insert x rest
  end.

Definition sort (l : list string) : list string := fold_right insert [] l.

(** The three stages of the pipeline of [attendance_trend] on a
    collection: [$match] on institution and student, [$group] by date
    counting the records and those whose status is "present", [$sort] by
    the group key, ascending. *)
Definition matched (institution_id student_id : string)
    (l : list (Document Attendance)) : list (Document Attendance) :=
  filter (fun x => matches [("institution_id", institution_id);
                            ("student_id", student_id)] (doc x)) l.

Definition on_date (dt : string) (l : list (Document Attendance))
  : list (Document Attendance) :=
  filter (fun x => String.eqb (a_date (doc x)) dt) l.

Definition group (dt : string) (l : list (Document Attendance)) : Point :=
  {| point_id := dt;
     point_present :=
       List.length (filter (fun x => String.eqb (Presence_str (a_status (doc x))) "present")
                      (on_date dt l));
     point_total := List.length (on_date dt l) |}.

Definition aggregate (institution_id student_id : string)
    (l : list (Document Attendance)) : list Point :=
  let m := matched institution_id student_id l in
  map (fun dt => group dt m)
    (sort (nodup string_dec (map (fun x => a_date (doc x)) m))).

Definition attendance_trend (institution_id student_id : string)
  : Handler (list Point) :=
  db <- handle ;;
  match db with
  | None => fail (HTTPException 500 "Database not available")
  | Some d => unit_ (aggregate institution_id student_id (attendance d))
  end.

(** The pair that the guard of [create_user] keeps apart: institution
    and e-mail address, for a user that has an address. *)
Definition email_key (u : User) : list (string * string) :=
  match given (u_email u) with
  | Some e => [(u_institution_id u, e)]
  | None => []
  end.

(** No two stored users share institution and e-mail address. *)
Definition emails_unique (d : Store) : Prop :=
  NoDup (flat_map (fun x => email_key (doc x)) (user d)).

(** The stored attendance records whose status is "absent". *)
Definition absences (d : Store) : list (Document Attendance) :=
  filter (fun x => match a_status (doc x) with absent => true | _ => false end)
    (attendance d).

(** A run of [mark_attendance] calls. *)
Fixpoint mark_all (payloads : list Attendance) (h : Handle) : Handle :=
  match payloads with
  | [] => h
  | p :: rest => mark_all rest (snd (mark_attendance p h))
  end.

(** The alert that [mark_attendance] queues for an absence. *)
Definition alert (a : Attendance) : Notification :=
  {| n_institution_id := a_institution_id a;
     n_user_id := a_student_id a;
     n_channel := push;
     n_template := "absence_alert";
     n_payload := [("date", a_date a)];
     n_status := queued |}.

(** Sample data. *)
Definition nobody : Store :=
  {| user := []; attendance := []; notification := []; made := 0 |}.

Definition a_user (institution_id name : string) (address : option string) : User :=
  {| u_institution_id := institution_id;
     u_role := teacher;
     u_name := name;
     u_email := address;
     u_phone := None;
     u_password := None;
     u_linked_student_id := None |}.

Definition a_record (student_id date : string) (status : Presence) : Attendance :=
  {| a_institution_id := "inst-a";
     a_student_id := student_id;
     a_batch_id := None;
     a_date := date;
     a_status := status;
     a_mode := manual;
     a_gps_lat := None;
     a_gps_lng := None;
     a_notes := None |}.

(** A store with one user that has an e-mail address. *)
Definition staffed : Store :=
  {| user := [{| _id := Bson.octets 12 0;
                 doc := a_user "inst-a" "Asha" (Some "asha@example.org") |}];
     attendance := [];
     notification := [];
     made := 1 |}.

(** A store with four attendance records of one student on three days. *)
Definition term : Handle :=
  mark_all [a_record "stud-1" "2024-03-02" present;
            a_record "stud-1" "2024-03-01" absent;
            a_record "stud-1" "2024-03-02" late;
            a_record "stud-1" "2024-02-28" present]
    (Some nobody).

End Campus.

(** * Properties *)

Module FloatOrderFacts.
Import FloatOrder.

Lemma SFcompare_key x y :
  SFcompare x y =
  match key x, key y with
  | Some k1, Some k2 => Some (lex k1 k2)
  | _, _ => None
  end.
Proof.
  destruct x as [[|]|[|]| |[|] m1 e1], y as [[|]|[|]| |[|] m2 e2]; simpl; try reflexivity.
  rewrite Z.compare_opp, (Z.compare_antisym e1 e2).
  destruct (e1 ?= e2)%Z; reflexivity.
Qed.

Lemma lex_Lt k1 k2 : lex k1 k2 = Lt <-> lex_lt k1 k2.
Proof.
  destruct k1 as [[a1 b1] c1], k2 as [[a2 b2] c2]; simpl.
  destruct (Z.compare_spec a1 a2), (Z.compare_spec b1 b2), (Z.compare_spec c1 c2);
    split; intros; try discriminate; try reflexivity; lia.
Qed.

Lemma lex_Eq k1 k2 : lex k1 k2 = Eq <-> k1 = k2.
Proof.
  destruct k1 as [[a1 b1] c1], k2 as [[a2 b2] c2]; simpl.
  destruct (Z.compare_spec a1 a2), (Z.compare_spec b1 b2), (Z.compare_spec c1 c2);
    split; intros H'; try discriminate; try reflexivity;
    try (inversion H'; lia); subst; reflexivity.
Qed.

Lemma lex_le_lt_eq k1 k2 : lex_le k1 k2 <-> lex_lt k1 k2 \/ k1 = k2.
Proof.
  destruct k1 as [[a1 b1] c1], k2 as [[a2 b2] c2]; simpl. split.
  - intros H. destruct (Z.eq_dec c1 c2), (Z.eq_dec b1 b2), (Z.eq_dec a1 a2);
      subst; try (right; reflexivity); left; lia.
  - intros [H|H]; [lia | inversion H; lia].
Qed.

Lemma leb_le x y : (x <=? y)%float = true <-> le x y.
Proof.
  rewrite leb_spec. unfold SFleb, le. rewrite SFcompare_key.
  destruct (key (Prim2SF x)) as [k1|], (key (Prim2SF y)) as [k2|];
    try (split; [discriminate | intros (? & ? & ? & ? & ?); discriminate]).
  split.
  - intros H. exists k1, k2. repeat split. apply lex_le_lt_eq.
    destruct (lex k1 k2) eqn:E; try discriminate.
    + right. now apply lex_Eq.
    + left. now apply lex_Lt.
  - intros (? & ? & [= <-] & [= <-] & H). apply lex_le_lt_eq in H.
    destruct H as [H|H].
    + apply lex_Lt in H. now rewrite H.
    + apply lex_Eq in H. now rewrite H.
Qed.

Lemma ltb_lt x y : (x <? y)%float = true <-> lt x y.
Proof.
  rewrite ltb_spec. unfold SFltb, lt. rewrite SFcompare_key.
  destruct (key (Prim2SF x)) as [k1|], (key (Prim2SF y)) as [k2|];
    try (split; [discriminate | intros (? & ? & ? & ? & ?); discriminate]).
  split.
  - intros H. exists k1, k2. repeat split.
    destruct (lex k1 k2) eqn:E; try discriminate. now apply lex_Lt.
  - intros (? & ? & [= <-] & [= <-] & H).
    apply lex_Lt in H. now rewrite H.
Qed.

Lemma le_trans x y z : le x y -> le y z -> le x z.
Proof.
  intros (k1 & k2 & H1 & H2 & H) (k2' & k3 & H2' & H3 & H').
  rewrite H2 in H2'. injection H2' as <-.
  exists k1, k3. repeat split; trivial.
  destruct k1 as [[a1 b1] c1], k2 as [[a2 b2] c2], k3 as [[a3 b3] c3]; simpl in *. lia.
Qed.

Lemma lt_le_trans x y z : lt x y -> le y z -> lt x z.
Proof.
  intros (k1 & k2 & H1 & H2 & H) (k2' & k3 & H2' & H3 & H').
  rewrite H2 in H2'. injection H2' as <-.
  exists k1, k3. repeat split; trivial.
  destruct k1 as [[a1 b1] c1], k2 as [[a2 b2] c2], k3 as [[a3 b3] c3]; simpl in *. lia.
Qed.

Lemma le_lt_trans x y z : le x y -> lt y z -> lt x z.
Proof.
  intros (k1 & k2 & H1 & H2 & H) (k2' & k3 & H2' & H3 & H').
  rewrite H2 in H2'. injection H2' as <-.
  exists k1, k3. repeat split; trivial.
  destruct k1 as [[a1 b1] c1], k2 as [[a2 b2] c2], k3 as [[a3 b3] c3]; simpl in *. lia.
Qed.

Lemma lt_le x y : lt x y -> le x y.
Proof.
  intros (k1 & k2 & H1 & H2 & H). exists k1, k2. repeat split; trivial.
  apply lex_le_lt_eq. now left.
Qed.

End FloatOrderFacts.

(** ** Rounding in the float operations *)

Module Rounding.
Import RoundingDefs.
#[local] Open Scope Z_scope.

Lemma fexp64_eq e : fexp64 e = Z.max (e - 53) (-1074).
Proof. reflexivity. Qed.

Lemma iter_pos_nat {A} (f : A -> A) p x :
  iter_pos f p x = Nat.iter (Pos.to_nat p) f x.
Proof.
  revert x. induction p as [p IH|p IH|]; intros x; cbn [iter_pos].
  - rewrite !IH, Pos2Nat.inj_xI, <- Nat.iter_succ_r, <- Nat.iter_add.
    f_equal. lia.
  - rewrite !IH, Pos2Nat.inj_xO, <- Nat.iter_add. f_equal. lia.
  - reflexivity.
Qed.

(** One step of [shr_1] on a non-negative mantissa. *)
Lemma shr_1_spec mrs :
  0 <= shr_m mrs ->
  shr_m (shr_1 mrs) = shr_m mrs / 2
  /\ shr_r (shr_1 mrs) = Z.odd (shr_m mrs)
  /\ shr_s (shr_1 mrs) = shr_r mrs || shr_s mrs.
Proof.
  destruct mrs as [m r s]. simpl. intros Hm.
  destruct m as [|[p|p|]|p]; try lia; simpl; repeat split.
  - rewrite Pos2Z.inj_xI. apply Z.div_unique with 1; lia.
  - rewrite Pos2Z.inj_xO. apply Z.div_unique with 0; lia.
Qed.

Lemma shr_iter_spec (M : Z) (k : nat) :
  0 <= M ->
  let mrs := Nat.iter k shr_1 (Build_shr_record M false false) in
  shr_m mrs = M / 2 ^ Z.of_nat k
  /\ (M mod 2 ^ Z.of_nat k = 0 -> shr_r mrs = false /\ shr_s mrs = false).
Proof.
  intros HM. induction k as [|k IH].
  - simpl. split; [now rewrite Z.div_1_r | auto].
  - cbn zeta in *. rewrite Nat2Z.inj_succ, Z.pow_succ_r by lia.
    simpl Nat.iter. destruct IH as [IHm IHe].
    set (mrs := Nat.iter k shr_1 _) in *.
    assert (0 <= shr_m mrs) as Hpos.
    { rewrite IHm. apply Z.div_pos; [lia|]. apply Z.pow_pos_nonneg; lia. }
    destruct (shr_1_spec mrs Hpos) as (H1 & H2 & H3).
    assert (0 < 2 ^ Z.of_nat k) as Hp by (apply Z.pow_pos_nonneg; lia).
    split.
    + rewrite H1, IHm. rewrite Z.div_div by lia. now rewrite Z.mul_comm.
    + intros Hmod. rewrite H2, H3.
      assert (M mod 2 ^ Z.of_nat k = 0) as Hk.
      { apply Z.mod_divide in Hmod; [|lia]. apply Z.mod_divide; [lia|].
        destruct Hmod as [q Hq]. exists (q * 2). lia. }
      destruct (IHe Hk) as [-> ->]. split; [|reflexivity].
      rewrite IHm. apply Z.mod_divide in Hmod; [|lia]. destruct Hmod as [q Hq].
      rewrite Hq. replace (q * (2 * 2 ^ Z.of_nat k)) with ((q * 2) * 2 ^ Z.of_nat k) by lia.
      rewrite Z.div_mul by lia. rewrite Z.mul_comm. apply Z.odd_even.
Qed.

(** [shr] on an exact non-negative mantissa: a floor division, with the
    location exact when nothing is lost. *)
Lemma shr_spec (M e n : Z) :
  0 <= M ->
  let '(mrs, e') := shr (Build_shr_record M false false) e n in
  shr_m mrs = M / 2 ^ Z.max n 0
  /\ e' = e + Z.max n 0
  /\ (M mod 2 ^ Z.max n 0 = 0 -> loc_of_shr_record mrs = loc_Exact).
Proof.
  intros HM. unfold shr. destruct n as [|p|p].
  - simpl. rewrite Z.div_1_r, Z.add_0_r. auto.
  - rewrite iter_pos_nat. rewrite Z.max_l by lia.
    destruct (shr_iter_spec M (Pos.to_nat p) HM) as [H1 H2].
    rewrite positive_nat_Z in *. split; [exact H1|]. split; [reflexivity|].
    intros Hmod. destruct (H2 Hmod) as [Hr Hs].
    destruct (Nat.iter _ _ _) as [m r s]. simpl in *. now subst.
  - rewrite Z.max_r by lia. simpl. rewrite Z.div_1_r, Z.add_0_r. auto.
Qed.

(** ** Number of binary digits *)

Lemma digits2_pos_bounds p :
  2 ^ (Zpos (digits2_pos p) - 1) <= Zpos p < 2 ^ Zpos (digits2_pos p).
Proof.
  induction p as [p IH|p IH|]; cbn [digits2_pos].
  - rewrite Pos2Z.inj_succ. change (Zpos p~1) with (2 * Zpos p + 1).
    replace (Z.succ (Zpos (digits2_pos p)) - 1) with (Z.succ (Zpos (digits2_pos p) - 1)) by lia.
    rewrite !Z.pow_succ_r by lia. lia.
  - rewrite Pos2Z.inj_succ. change (Zpos p~0) with (2 * Zpos p).
    replace (Z.succ (Zpos (digits2_pos p)) - 1) with (Z.succ (Zpos (digits2_pos p) - 1)) by lia.
    rewrite !Z.pow_succ_r by lia. lia.
  - simpl. lia.
Qed.

Lemma Zdigits2_nonneg m : 0 <= Zdigits2 m.
Proof. destruct m; simpl; lia. Qed.

Lemma Zdigits2_bounds m :
  0 < m -> 2 ^ (Zdigits2 m - 1) <= m < 2 ^ Zdigits2 m.
Proof.
  destruct m as [|p|p]; try lia. intros _. apply digits2_pos_bounds.
Qed.

Lemma Zdigits2_le_iff m k :
  0 < m -> 0 <= k -> (Zdigits2 m <= k <-> m < 2 ^ k).
Proof.
  intros Hm Hk. pose proof (Zdigits2_bounds m Hm) as [Hlo Hhi].
  pose proof (Zdigits2_nonneg m). split.
  - intros H'. apply Z.lt_le_trans with (1 := Hhi).
    apply Z.pow_le_mono_r; lia.
  - intros H'. destruct (Z.le_gt_cases (Zdigits2 m) k) as [|Hgt]; trivial.
    assert (2 ^ k <= 2 ^ (Zdigits2 m - 1)) by (apply Z.pow_le_mono_r; lia). lia.
Qed.

Lemma Zdigits2_mono m m' : 0 < m -> m <= m' -> Zdigits2 m <= Zdigits2 m'.
Proof.
  intros Hm Hle. apply Zdigits2_le_iff; [trivial | apply Zdigits2_nonneg |].
  pose proof (Zdigits2_bounds m' ltac:(lia)). lia.
Qed.

Lemma Zdigits2_mul_pow2 m k :
  0 < m -> 0 <= k -> Zdigits2 (m * 2 ^ k) = Zdigits2 m + k.
Proof.
  intros Hm Hk. pose proof (Zdigits2_bounds m Hm) as [Hlo Hhi].
  pose proof (Zdigits2_nonneg m).
  assert (0 < 2 ^ k) as Hp by (apply Z.pow_pos_nonneg; lia).
  assert (0 < Zdigits2 m) as Hd.
  { destruct m; simpl in *; lia. }
  apply Z.le_antisymm.
  - apply Zdigits2_le_iff; [nia | lia |].
    rewrite Z.pow_add_r by lia. nia.
  - destruct (Z.le_gt_cases (Zdigits2 m + k) (Zdigits2 (m * 2 ^ k))) as [|Hgt]; trivial.
    assert (Zdigits2 (m * 2 ^ k) <= Zdigits2 m + k - 1) as Hle by lia.
    apply Zdigits2_le_iff in Hle; [|nia|lia].
    replace (Zdigits2 m + k - 1) with ((Zdigits2 m - 1) + k) in Hle by lia.
    rewrite Z.pow_add_r in Hle by lia. nia.
Qed.

Lemma Zdigits2_div_pow2 m k :
  0 <= k -> 2 ^ k <= m -> Zdigits2 (m / 2 ^ k) = Zdigits2 m - k.
Proof.
  intros Hk Hm.
  assert (0 < 2 ^ k) as Hp by (apply Z.pow_pos_nonneg; lia).
  assert (0 < m / 2 ^ k) as Hq by (apply Z.div_str_pos; lia).
  pose proof (Zdigits2_bounds m ltac:(lia)) as [Hlo Hhi].
  pose proof (Zdigits2_bounds _ Hq) as [Hlo' Hhi'].
  pose proof (Zdigits2_nonneg m). pose proof (Zdigits2_nonneg (m / 2 ^ k)).
  pose proof (Z.mul_div_le m (2 ^ k) Hp) as Hfloor.
  pose proof (Z.mul_succ_div_gt m (2 ^ k) Hp) as Hceil.
  assert (0 < Zdigits2 (m / 2 ^ k)) as Hd.
  { destruct (m / 2 ^ k); simpl in *; lia. }
  apply Z.le_antisymm.
  - apply Zdigits2_le_iff; [lia| |].
    + destruct (Z.le_gt_cases k (Zdigits2 m)) as [|Hgt]; [lia|].
      assert (2 ^ Zdigits2 m <= 2 ^ k) by (apply Z.pow_le_mono_r; lia). lia.
    + destruct (Z.le_gt_cases k (Zdigits2 m)) as [Hkd|Hgt].
      * apply Z.div_lt_upper_bound; [lia|].
        rewrite <- Z.pow_add_r by lia. now replace (k + (Zdigits2 m - k)) with (Zdigits2 m) by lia.
      * assert (2 ^ Zdigits2 m <= 2 ^ k) by (apply Z.pow_le_mono_r; lia). lia.
  - destruct (Z.le_gt_cases (Zdigits2 m - k) (Zdigits2 (m / 2 ^ k))) as [|Hgt]; trivial.
    assert (Zdigits2 m <= Zdigits2 (m / 2 ^ k) + k) as Hgoal; [|lia].
    apply Zdigits2_le_iff; [lia|lia|].
    rewrite Z.pow_add_r by lia. nia.
Qed.

(** ** Rounding an exact mantissa *)

Lemma round_nearest_even_bounds m l :
  m <= round_nearest_even m l <= m + 1
  /\ (l = loc_Exact -> round_nearest_even m l = m).
Proof.
  destruct l as [|[| |]]; simpl; try destruct (Z.even m); split; try lia;
    intros; try reflexivity; discriminate.
Qed.

Lemma binary_round_aux_exact s (m : positive) e :
  let n := Z.max (fexp64 (Zdigits2 (Zpos m) + e) - e) 0 in
  exists m2,
    Zpos m / 2 ^ n <= m2 <= Zpos m / 2 ^ n + 1
    /\ (Zpos m mod 2 ^ n = 0 -> m2 = Zpos m / 2 ^ n)
    /\ let n2 := Z.max (fexp64 (Zdigits2 m2 + (e + n)) - (e + n)) 0 in
       binary_round_aux prec emax s (Zpos m) e loc_Exact
       = finish s (m2 / 2 ^ n2) (e + n + n2).
Proof.
  intros n. unfold binary_round_aux, shr_fexp. cbn [shr_record_of_loc].
  pose proof (shr_spec (Zpos m) e (fexp64 (Zdigits2 (Zpos m) + e) - e) ltac:(lia)) as H1.
  unfold fexp64 in *.
  destruct (shr _ e _) as [mrs' e'] eqn:E1.
  destruct H1 as (Hm1 & He1 & Hloc). fold n in Hm1, He1, Hloc.
  pose proof (round_nearest_even_bounds (shr_m mrs') (loc_of_shr_record mrs')) as [Hb Hex].
  set (m2 := round_nearest_even _ _) in *.
  assert (0 < 2 ^ n) as Hp by (apply Z.pow_pos_nonneg; lia).
  assert (0 <= Zpos m / 2 ^ n) as Hq by (apply Z.div_pos; lia).
  exists m2. split; [lia|]. split.
  { intros Hmod. rewrite <- Hm1. apply Hex. now apply Hloc. }
  cbn zeta. subst e'.
  pose proof (shr_spec m2 (e + n) (fexp prec emax (Zdigits2 m2 + (e + n)) - (e + n)) ltac:(lia)) as H2.
  destruct (shr _ (e + n) _) as [mrs'' e''] eqn:E2.
  destruct H2 as (Hm2 & He2 & _).
  rewrite Hm2, He2. reflexivity.
Qed.

Lemma Pos_iter_xO m k : Zpos (Pos.iter xO m k) = Zpos m * 2 ^ Zpos k.
Proof.
  induction k as [|k IH] using Pos.peano_ind.
  - simpl. lia.
  - rewrite Pos.iter_succ, Pos2Z.inj_succ, Z.pow_succ_r by lia.
    change (Zpos (Pos.iter xO m k)~0) with (2 * Zpos (Pos.iter xO m k)).
    rewrite IH. lia.
Qed.

Lemma binary_round_aligned s M e :
  -1074 <= e ->
  exists mz ez,
    binary_round prec emax s M e = binary_round_aux prec emax s (Zpos mz) ez loc_Exact
    /\ Zpos mz * 2 ^ (ez + 1074) = Zpos M * 2 ^ (e + 1074)
    /\ -1074 <= ez
    /\ ez <= fexp64 (Zdigits2 (Zpos mz) + ez)
    /\ Zdigits2 (Zpos mz) + ez = Zdigits2 (Zpos M) + e.
Proof.
  intros He. unfold binary_round, shl_align.
  change (Zpos (digits2_pos M)) with (Zdigits2 (Zpos M)).
  fold (fexp64 (Zdigits2 (Zpos M) + e)).
  set (f := fexp64 (Zdigits2 (Zpos M) + e)).
  assert (-1074 <= f) as Hf by (unfold f; rewrite fexp64_eq; lia).
  destruct (f - e) as [|k|k] eqn:Ek.
  - exists M, e. repeat split; trivial. fold f. lia.
  - exists M, e. repeat split; trivial. fold f. lia.
  - exists (Pos.iter xO M k), f.
    assert (Zdigits2 (Zpos (Pos.iter xO M k)) + f = Zdigits2 (Zpos M) + e) as Hd.
    { rewrite Pos_iter_xO, Zdigits2_mul_pow2 by lia. lia. }
    repeat split; trivial.
    + rewrite Pos_iter_xO.
      replace (e + 1074) with (Zpos k + (f + 1074)) by lia.
      rewrite (Z.pow_add_r 2 (Zpos k) (f + 1074)) by lia. ring.
    + rewrite Hd. fold f. lia.
Qed.

Lemma bounded_inv mx ex :
  bounded prec emax mx ex = true ->
  fexp64 (Zdigits2 (Zpos mx) + ex) = ex /\ ex <= 971.
Proof.
  unfold bounded, canonical_mantissa. intros H.
  apply andb_prop in H. destruct H as [H1 H2].
  apply Z.eqb_eq in H1. apply Z.leb_le in H2. split; [exact H1 | exact H2].
Qed.

Lemma scaled_digits m e m' e' :
  0 < m -> -1074 <= e -> -1074 <= e' ->
  m * 2 ^ (e + 1074) <= m' * 2 ^ (e' + 1074) ->
  Zdigits2 m + e <= Zdigits2 m' + e'.
Proof.
  intros Hm He He' Hle.
  assert (0 < 2 ^ (e + 1074)) by (apply Z.pow_pos_nonneg; lia).
  assert (0 < 2 ^ (e' + 1074)) by (apply Z.pow_pos_nonneg; lia).
  assert (0 < m') by nia.
  assert (Zdigits2 (m * 2 ^ (e + 1074)) <= Zdigits2 (m' * 2 ^ (e' + 1074))) as Hd.
  { apply Zdigits2_mono; [nia | exact Hle]. }
  rewrite !Zdigits2_mul_pow2 in Hd by lia. lia.
Qed.

(** Rounding never produces a result above a representable number that
    bounds the exact value. *)
Lemma binary_round_le s M e mx ex :
  -1074 <= e ->
  bounded prec emax mx ex = true ->
  Zpos M * 2 ^ (e + 1074) <= Zpos mx * 2 ^ (ex + 1074) ->
  match binary_round prec emax s M e with
  | S754_zero s' => s' = s
  | S754_finite s' m' e' => s' = s /\ (e' < ex \/ (e' = ex /\ Zpos m' <= Zpos mx))
  | _ => False
  end.
Proof.
  intros He Hb Hle. destruct (bounded_inv _ _ Hb) as [Hcan Hmax].
  assert (-1074 <= ex) as Hex by (rewrite <- Hcan, fexp64_eq; lia).
  destruct (binary_round_aligned s M e He) as (mz & ez & -> & Hval & Hez & Hfz & Hdz).
  rewrite <- Hval in Hle. clear Hval.
  destruct (binary_round_aux_exact s mz ez) as (m2 & Hm2 & Hexact & Hres).
  cbn zeta in Hres. rewrite Hres. clear Hres.
  set (f := fexp64 (Zdigits2 (Zpos mz) + ez)) in *.
  rewrite (Z.max_l (f - ez) 0) in * by lia.
  replace (ez + (f - ez)) with f by lia.
  set (n := f - ez) in *.
  assert (0 <= n) as Hn by (unfold n; lia).
  assert (f <= ex) as Hfex.
  { pose proof (scaled_digits (Zpos mz) ez (Zpos mx) ex ltac:(lia) Hez Hex Hle) as Hd.
    unfold f. rewrite <- Hcan, !fexp64_eq. lia. }
  assert (0 < 2 ^ n) as Hpn by (apply Z.pow_pos_nonneg; lia).
  set (K := Zpos mx * 2 ^ (ex - f)).
  assert (0 < 2 ^ (ex - f)) as Hpk by (apply Z.pow_pos_nonneg; lia).
  assert (Zpos mz <= K * 2 ^ n) as HzK.
  { assert (0 < 2 ^ (ez + 1074)) as Hp by (apply Z.pow_pos_nonneg; lia).
    replace (ex + 1074) with ((ex - f) + (n + (ez + 1074))) in Hle by (unfold n; lia).
    rewrite (Z.pow_add_r 2 (ex - f) (n + (ez + 1074))),
      (Z.pow_add_r 2 n (ez + 1074)) in Hle by lia.
    unfold K. nia. }
  assert (m2 <= K) as Hm2K.
  { destruct (Z.eq_dec (Zpos mz mod 2 ^ n) 0) as [Hmod|Hmod].
    - rewrite (Hexact Hmod). apply Z.div_le_upper_bound; lia.
    - assert (Zpos mz / 2 ^ n < K); [|lia].
      apply Z.div_lt_upper_bound; [lia|].
      destruct (Z.eq_dec (Zpos mz) (K * 2 ^ n)) as [Heq|]; [|lia].
      rewrite Heq, Z.mod_mul in Hmod by lia. contradiction. }
  assert (0 <= m2) as Hm2pos.
  { pose proof (Z.div_pos (Zpos mz) (2 ^ n)). lia. }
  set (n2 := Z.max (fexp64 (Zdigits2 m2 + f) - f) 0).
  assert (0 < 2 ^ n2) as Hpn2 by (apply Z.pow_pos_nonneg; lia).
  assert (0 <= m2 / 2 ^ n2) as Hq2 by (apply Z.div_pos; lia).
  destruct (Z.eq_dec m2 0) as [->|Hnz].
  { rewrite Z.div_0_l by lia. reflexivity. }
  assert (f + n2 <= ex /\ m2 <= Zpos mx * 2 ^ (ex - (f + n2)) * 2 ^ n2) as [He2 Hm2x].
  { assert (Zdigits2 m2 + f <= Zdigits2 (Zpos mx) + ex) as Hd.
    { assert (Zdigits2 m2 <= Zdigits2 K) by (apply Zdigits2_mono; lia).
      unfold K in *. rewrite Zdigits2_mul_pow2 in * by lia. lia. }
    assert (fexp64 (Zdigits2 m2 + f) <= ex) as Hf2.
    { rewrite <- Hcan, !fexp64_eq. lia. }
    split; [unfold n2; lia|].
    rewrite <- Z.mul_assoc, <- Z.pow_add_r by (unfold n2; lia).
    replace (ex - (f + n2) + n2) with (ex - f) by lia. exact Hm2K. }
  destruct (m2 / 2 ^ n2) as [|p|p] eqn:Ediv; [reflexivity | | lia].
  cbn [finish]. replace (f + n2 <=? emax - prec) with true
    by (symmetry; apply Z.leb_le; change (emax - prec) with 971; lia).
  split; [reflexivity|].
  destruct (Z.eq_dec (f + n2) ex) as [Heq|]; [right|left; lia].
  split; [exact Heq|]. rewrite <- Ediv.
  replace (ex - (f + n2)) with 0 in Hm2x by lia.
  apply Z.div_le_upper_bound; lia.
Qed.

(** Rounding never produces a result below a representable number that
    the exact value reaches. *)
Lemma binary_round_ge s M e mx ex :
  -1074 <= e ->
  bounded prec emax mx ex = true ->
  Zpos mx * 2 ^ (ex + 1074) <= Zpos M * 2 ^ (e + 1074) ->
  match binary_round prec emax s M e with
  | S754_infinity s' => s' = s
  | S754_finite s' m' e' => s' = s /\ (ex < e' \/ (e' = ex /\ Zpos mx <= Zpos m'))
  | _ => False
  end.
Proof.
  intros He Hb Hle. destruct (bounded_inv _ _ Hb) as [Hcan Hmax].
  assert (-1074 <= ex) as Hex by (rewrite <- Hcan, fexp64_eq; lia).
  destruct (binary_round_aligned s M e He) as (mz & ez & -> & Hval & Hez & Hfz & Hdz).
  rewrite <- Hval in Hle. clear Hval.
  destruct (binary_round_aux_exact s mz ez) as (m2 & Hm2 & _ & Hres).
  cbn zeta in Hres. rewrite Hres. clear Hres.
  set (f := fexp64 (Zdigits2 (Zpos mz) + ez)) in *.
  rewrite (Z.max_l (f - ez) 0) in * by lia.
  replace (ez + (f - ez)) with f by lia.
  set (n := f - ez) in *.
  assert (0 <= n) as Hn by (unfold n; lia).
  assert (ex <= f) as Hfex.
  { pose proof (scaled_digits (Zpos mx) ex (Zpos mz) ez ltac:(lia) Hex Hez Hle) as Hd.
    unfold f. rewrite <- Hcan, !fexp64_eq. lia. }
  assert (0 < 2 ^ n) as Hpn by (apply Z.pow_pos_nonneg; lia).
  pose proof (Zdigits2_bounds (Zpos mz) ltac:(lia)) as [Hlo _].
  assert (f = ex -> Zpos mx * 2 ^ n <= Zpos mz) as Hsame.
  { intros Heq. assert (0 < 2 ^ (ez + 1074)) as Hp by (apply Z.pow_pos_nonneg; lia).
    replace (ex + 1074) with (n + (ez + 1074)) in Hle by (unfold n; lia).
    rewrite (Z.pow_add_r 2 n (ez + 1074)) in Hle by lia. nia. }
  assert (2 ^ n <= Zpos mz) as Hbig.
  { destruct (Z.eq_dec f ex) as [Heq|Hne].
    - specialize (Hsame Heq). nia.
    - assert (f = Zdigits2 (Zpos mz) + ez - 53) as Hf.
      { unfold f in *. rewrite fexp64_eq in *. lia. }
      apply Z.le_trans with (2 := Hlo). apply Z.pow_le_mono_r; unfold n; lia. }
  assert (1 <= Zpos mz / 2 ^ n) as Hm1.
  { apply Z.div_le_lower_bound; lia. }
  assert (1 <= m2) as Hm2pos by lia.
  set (n2 := Z.max (fexp64 (Zdigits2 m2 + f) - f) 0).
  assert (0 <= n2) as Hn2 by (unfold n2; lia).
  assert (0 < 2 ^ n2) as Hpn2 by (apply Z.pow_pos_nonneg; lia).
  assert (1 <= m2 / 2 ^ n2) as Hq2.
  { apply Z.div_le_lower_bound; [lia|]. rewrite Z.mul_1_r.
    destruct (Z.eq_dec n2 0) as [->|Hnz]; [simpl; lia|].
    pose proof (Zdigits2_bounds m2 ltac:(lia)) as [Hlo2 _].
    apply Z.le_trans with (2 := Hlo2). apply Z.pow_le_mono_r; [lia|].
    unfold n2 in *. rewrite fexp64_eq in *. unfold f in *. rewrite fexp64_eq in *. lia. }
  destruct (m2 / 2 ^ n2) as [|p|p] eqn:Ediv; [lia | | lia].
  cbn [finish]. destruct (f + n2 <=? emax - prec); [|reflexivity].
  split; [reflexivity|].
  destruct (Z.eq_dec (f + n2) ex) as [Heq|]; [right|left; lia].
  split; [exact Heq|].
  assert (n2 = 0) as Hz by lia. assert (f = ex) as Hfe by lia.
  rewrite Hz in Ediv. simpl in Ediv. rewrite Z.div_1_r in Ediv.
  rewrite <- Ediv. specialize (Hsame Hfe).
  assert (Zpos mx <= Zpos mz / 2 ^ n) by (apply Z.div_le_lower_bound; lia). lia.
Qed.

(** Rounding keeps the sign it is given and never yields a NaN. *)
Lemma binary_round_sign s M e :
  -1074 <= e ->
  match binary_round prec emax s M e with
  | S754_zero s' | S754_infinity s' | S754_finite s' _ _ => s' = s
  | S754_nan => False
  end.
Proof.
  intros He.
  destruct (binary_round_aligned s M e He) as (mz & ez & -> & _ & Hez & Hfz & _).
  destruct (binary_round_aux_exact s mz ez) as (m2 & Hm2 & _ & Hres).
  cbn zeta in Hres. rewrite Hres. clear Hres.
  set (n := Z.max _ 0) in *. set (n2 := Z.max _ 0).
  assert (0 <= Zpos mz / 2 ^ n)
    by (apply Z.div_pos; [lia | apply Z.pow_pos_nonneg; unfold n; lia]).
  assert (0 <= m2 / 2 ^ n2)
    by (apply Z.div_pos; [lia | apply Z.pow_pos_nonneg; unfold n2; lia]).
  destruct (m2 / 2 ^ n2) as [|p|p]; cbn [finish]; try reflexivity; try lia.
  now destruct (_ <=? _).
Qed.

End Rounding.

#[local] Open Scope list_scope.

(** ** What [record_payment] does, step by step *)

Section RecordPayment.

Variable payload : RecordPaymentRequest.
Variable d : Db.
Variable pay : Payment.

Hypothesis Hpay :
  Payment_new (rp_institution_id payload) (rp_invoice_id payload)
    (rp_amount payload) (rp_method payload) (rp_provider payload)
    (rp_txn_ref payload) = Return pay.

Lemma record_payment_invalid_id :
  Bson.ObjectId_of_str (rp_invoice_id payload) = None ->
  record_payment payload (Some d)
  = (Raise (HTTPException 400 "Invalid id"), Some (insert_payment d pay)).
Proof.
  intros Hoid. unfold record_payment, bind, lift, get, to_oid.
  rewrite Hpay. unfold create_document_payment. now rewrite Hoid.
Qed.

Lemma record_payment_no_invoice oid :
  Bson.ObjectId_of_str (rp_invoice_id payload) = Some oid ->
  find_one_invoice d oid = None ->
  record_payment payload (Some d)
  = (Return {| id := Bson.str (fresh d) |}, Some (insert_payment d pay)).
Proof.
  intros Hoid Hfind. unfold record_payment, bind, lift, get, to_oid.
  rewrite Hpay. unfold create_document_payment. rewrite Hoid.
  unfold find_one_invoice in *.
  change (invoice (insert_payment d pay)) with (invoice d). now rewrite Hfind.
Qed.

Lemma record_payment_invoice oid inv :
  Bson.ObjectId_of_str (rp_invoice_id payload) = Some oid ->
  find_one_invoice d oid = Some inv ->
  record_payment payload (Some d)
  = (Return {| id := Bson.str (fresh d) |},
     Some (update_one_invoice (_id inv)
             (status_of (doc inv)
                (find_payment (insert_payment d pay) (rp_invoice_id payload)))
             (insert_payment d pay))).
Proof.
  intros Hoid Hfind. unfold record_payment, bind, lift, get, to_oid.
  rewrite Hpay. unfold create_document_payment. rewrite Hoid.
  unfold find_one_invoice in *.
  change (invoice (insert_payment d pay)) with (invoice d). now rewrite Hfind.
Qed.

End RecordPayment.

Lemma record_payment_rejected payload h e :
  Payment_new (rp_institution_id payload) (rp_invoice_id payload)
    (rp_amount payload) (rp_method payload) (rp_provider payload)
    (rp_txn_ref payload) = Raise e ->
  record_payment payload h = (Raise e, h).
Proof.
  intros H. unfold record_payment, bind, lift. now rewrite H.
Qed.

Lemma Payment_new_amount i s a m p t pay :
  Payment_new i s a m p t = Return pay ->
  pay_amount pay = a /\ pay_invoice_id pay = s /\ pay_institution_id pay = i.
Proof.
  unfold Payment_new. destruct (_ && _); [|discriminate].
  intros [= <-]. now repeat split.
Qed.

(** ** The store operations on invoices *)

Lemma find_one_invoice_id d oid inv :
  find_one_invoice d oid = Some inv -> _id inv = oid.
Proof.
  unfold find_one_invoice. intros H. apply find_some in H.
  now apply String.eqb_eq.
Qed.

Lemma find_update_first oid st l x :
  find (fun y => String.eqb (_id y) oid) l = Some x ->
  find (fun y => String.eqb (_id y) oid) (update_first oid st l)
  = Some {| _id := _id x; doc := set_status st (doc x) |}.
Proof.
  induction l as [|y l IH]; simpl; [discriminate|].
  destruct (String.eqb (_id y) oid) eqn:E.
  - intros [= ->]. simpl. now rewrite E.
  - intros H. simpl. rewrite E. now apply IH.
Qed.

Lemma record_payment_cases payload d :
  snd (record_payment payload (Some d)) = Some d
  \/ exists pay,
       snd (record_payment payload (Some d)) = Some (insert_payment d pay)
       \/ exists oid st,
            Bson.ObjectId_of_str (rp_invoice_id payload) = Some oid
            /\ snd (record_payment payload (Some d))
               = Some (update_one_invoice oid st (insert_payment d pay)).
Proof.
  destruct (Payment_new (rp_institution_id payload) (rp_invoice_id payload)
              (rp_amount payload) (rp_method payload) (rp_provider payload)
              (rp_txn_ref payload)) as [pay|e] eqn:Hpay.
  - right. exists pay.
    destruct (Bson.ObjectId_of_str (rp_invoice_id payload)) as [oid|] eqn:Hoid.
    + destruct (find_one_invoice d oid) as [inv|] eqn:Hfind.
      * right. exists oid. eexists. split; [reflexivity|].
        rewrite (record_payment_invoice payload d pay Hpay oid inv Hoid Hfind).
        now rewrite (find_one_invoice_id _ _ _ Hfind).
      * left. now rewrite (record_payment_no_invoice payload d pay Hpay oid Hoid Hfind).
    + left. now rewrite (record_payment_invalid_id payload d pay Hpay Hoid).
  - left. now rewrite (record_payment_rejected payload (Some d) e Hpay).
Qed.

Lemma same_but_status_refl a : same_but_status a a.
Proof. now repeat split. Qed.

Lemma same_but_status_set_status st a : same_but_status a (set_status st a).
Proof. now repeat split. Qed.

Lemma Forall2_unchanged target (l : list (Document Invoice)) :
  Forall2 (status_write target) l l.
Proof.
  induction l; constructor; unfold status_write; auto using same_but_status_refl.
Qed.

Lemma Forall2_update_first oid st (l : list (Document Invoice)) :
  Forall2 (status_write (Some oid)) l (update_first oid st l).
Proof.
  induction l as [|x l IH]; simpl; [constructor|].
  destruct (String.eqb (_id x) oid) eqn:E.
  - constructor; [|apply Forall2_unchanged].
    apply String.eqb_eq in E.
    split; [reflexivity | split].
    + apply same_but_status_set_status.
    + intros H. now rewrite E in H.
  - constructor; [|exact IH].
    split; [reflexivity | split; [apply same_but_status_refl | reflexivity]].
Qed.

Lemma firstn_app_all {A} (l l' : list A) : firstn (List.length l) (l ++ l') = l.
Proof.
  induction l; simpl; [now destruct l' | now f_equal].
Qed.

Lemma status_of_recompute_status inv ps :
  status_of inv ps = Settlement.recompute_status inv (map doc ps).
Proof.
  unfold status_of, Settlement.recompute_status, Settlement.geb, Settlement.gtb,
    Settlement.amount_paid, paid_total, Settlement.epsilon.
  now rewrite map_map.
Qed.

(** The lookup that found [inv] under [oid] finds, after the payment is
    written and the status [st] is set under the id of [inv], the same
    document with that status. *)
Lemma find_one_invoice_updated d pay oid inv st :
  find_one_invoice d oid = Some inv ->
  find_one_invoice (update_one_invoice (_id inv) st (insert_payment d pay)) oid
  = Some {| _id := _id inv; doc := set_status st (doc inv) |}.
Proof.
  intros Hfind. pose proof (find_one_invoice_id _ _ _ Hfind) as Hid.
  unfold find_one_invoice, update_one_invoice.
  cbn [invoice payment insert_payment]. rewrite Hid.
  rewrite (find_update_first oid st _ inv Hfind). now rewrite Hid.
Qed.

(** ** The claims about [record_payment] as a request handler *)

(** C1, as stated, fails.  The ledger that [record_payment] sums is
    selected by the spelling of the request's [invoice_id]: a payment of
    1180 recorded under the upper-case spelling of the invoice's id
    references the invoice, yet it is not counted when a payment of 100
    arrives under the lower-case spelling.  The settlement algorithm on
    all payments referencing the invoice gives [paid]; the handler
    leaves [partially_paid]. *)
Lemma record_payment_misses_other_spelling :
  exists d' inv',
    snd (record_payment
           (Sample.payment_request "inst-a" "00000000000000000000000a" 100)
           (Some Sample.lettered)) = Some d'
    /\ find_one_invoice d' (Bson.octets 12 10) = Some inv'
    /\ map (fun p => Bson.ObjectId_of_str (pay_invoice_id (doc p))) (payment d')
       = [Some (_id inv'); Some (_id inv')]
    /\ map pay_amount (Settlement.payments_referencing d' (_id inv'))
       = [1180%float; 100%float]
    /\ Settlement.recompute_status (doc inv')
         (Settlement.payments_referencing d' (_id inv')) = paid
    /\ inv_status (doc inv') = partially_paid
    /\ inv_status (doc inv')
       <> Settlement.recompute_status (doc inv')
            (Settlement.payments_referencing d' (_id inv')).
Proof.
  eexists. eexists.
  split; [vm_compute; reflexivity|].
  split; [vm_compute; reflexivity|].
  repeat split; try (vm_compute; reflexivity).
  vm_compute. discriminate.
Qed.

(** C1, amended.  When the payment is accepted, the invoice id parses and
    the invoice is found, [record_payment] returns the payment's id,
    appends the payment, and the found invoice then has the status that
    the specification's settlement algorithm [recompute_status] gives for
    the invoice and the stored payments, the new one included, whose
    [invoice_id] is exactly the request's string: items total, tax as
    [gst_percent * items_total / 100], amount due, amount paid, then
    [paid] if [amount_paid >= amount_due - 0.01], else [partially_paid] if
    [amount_paid > 0], else [unpaid]. *)
Theorem record_payment_status_is_recompute_status payload d pay oid inv :
  Payment_new (rp_institution_id payload) (rp_invoice_id payload)
    (rp_amount payload) (rp_method payload) (rp_provider payload)
    (rp_txn_ref payload) = Return pay ->
  Bson.ObjectId_of_str (rp_invoice_id payload) = Some oid ->
  find_one_invoice d oid = Some inv ->
  exists d' inv',
    record_payment payload (Some d)
    = (Return {| id := Bson.str (fresh d) |}, Some d')
    /\ payment d' = payment d ++ [{| _id := fresh d; doc := pay |}]
    /\ find_one_invoice d' oid = Some inv'
    /\ inv_status (doc inv')
       = Settlement.recompute_status (doc inv)
           (map doc
              (filter (fun p => String.eqb (pay_invoice_id (doc p))
                                  (rp_invoice_id payload))
                 (payment d'))).
Proof.
  intros Hpay Hoid Hfind.
  eexists. eexists. split; [|split; [|split]].
  - exact (record_payment_invoice payload d pay Hpay oid inv Hoid Hfind).
  - reflexivity.
  - now apply find_one_invoice_updated.
  - rewrite <- status_of_recompute_status. reflexivity.
Qed.

Lemma record_payment_status_is_recompute_status_witness :
  exists d' inv',
    record_payment (Sample.payment_request "inst-a" Sample.first_id 500)
      (Some Sample.tuition)
    = (Return {| id := Bson.str (fresh Sample.tuition) |}, Some d')
    /\ payment d' = payment Sample.tuition
                    ++ [{| _id := fresh Sample.tuition;
                           doc := doc (Sample.payment_of 500) |}]
    /\ find_one_invoice d' (fresh Sample.empty) = Some inv'
    /\ inv_status (doc inv')
       = Settlement.recompute_status (Sample.invoice_of 1000 18)
           (map doc
              (filter (fun p => String.eqb (pay_invoice_id (doc p)) Sample.first_id)
                 (payment d'))).
Proof.
  apply (record_payment_status_is_recompute_status
           (Sample.payment_request "inst-a" Sample.first_id 500)
           Sample.tuition (doc (Sample.payment_of 500)) (fresh Sample.empty)
           {| _id := fresh Sample.empty; doc := Sample.invoice_of 1000 18 |});
    reflexivity.
Defined.

(** C10. With an [invoice_id] that is no ObjectId, an accepted payment is
    written to the store first; the lookup then raises the HTTP 400 error
    "Invalid id", so the caller gets an error and no payment id while the
    store keeps the payment. *)
Theorem record_payment_invalid_id_keeps_payment payload d pay :
  Payment_new (rp_institution_id payload) (rp_invoice_id payload)
    (rp_amount payload) (rp_method payload) (rp_provider payload)
    (rp_txn_ref payload) = Return pay ->
  Bson.ObjectId_of_str (rp_invoice_id payload) = None ->
  exists d',
    record_payment payload (Some d)
    = (Raise (HTTPException 400 "Invalid id"), Some d')
    /\ payment d' = payment d ++ [{| _id := fresh d; doc := pay |}]
    /\ invoice d' = invoice d.
Proof.
  intros Hpay Hoid. exists (insert_payment d pay).
  rewrite (record_payment_invalid_id payload d pay Hpay Hoid).
  repeat split.
Qed.

Lemma record_payment_invalid_id_keeps_payment_witness :
  exists d',
    record_payment (Sample.payment_request "inst-a" "not-an-id" 500)
      (Some Sample.tuition)
    = (Raise (HTTPException 400 "Invalid id"), Some d')
    /\ payment d'
       = payment Sample.tuition
         ++ [{| _id := fresh Sample.tuition;
                doc := {| pay_institution_id := "inst-a";
                          pay_invoice_id := "not-an-id";
                          pay_amount := 500;
                          pay_method := "upi";
                          pay_provider := None;
                          pay_txn_ref := None |} |}]
    /\ invoice d' = invoice Sample.tuition.
Proof.
  apply (record_payment_invalid_id_keeps_payment
           (Sample.payment_request "inst-a" "not-an-id" 500) Sample.tuition);
    reflexivity.
Defined.

(** C3, as stated, fails: a payment against a well-formed id that no
    invoice has is accepted, stored and answered with its id; and a
    payment naming another institution than the invoice's still finds the
    invoice and settles it. *)
Lemma record_payment_unknown_invoice_is_accepted :
  find_one_invoice Sample.tuition
    (Bson.octets 12 (2 ^ 96 - 1)) = None
  /\ Bson.ObjectId_of_str Sample.other_id = Some (Bson.octets 12 (2 ^ 96 - 1))
  /\ record_payment (Sample.payment_request "inst-a" Sample.other_id 500)
       (Some Sample.tuition)
     = (Return {| id := "000000000000000000000001" |},
        Some (insert_payment Sample.tuition
                {| pay_institution_id := "inst-a";
                   pay_invoice_id := Sample.other_id;
                   pay_amount := 500;
                   pay_method := "upi";
                   pay_provider := None;
                   pay_txn_ref := None |}))
  /\ fst (record_payment (Sample.payment_request "inst-b" Sample.first_id 500)
            (Some Sample.tuition))
     = Return {| id := "000000000000000000000001" |}
  /\ Sample.statuses
       (snd (record_payment (Sample.payment_request "inst-b" Sample.first_id 500)
               (Some Sample.tuition)))
     = [partially_paid].
Proof.
  repeat split; vm_compute; reflexivity.
Qed.

(** C3, amended.  For an accepted payment whose [invoice_id] parses,
    [record_payment] raises nothing: the payment is stored and its id is
    returned.  If no invoice has that id, no invoice changes.  If an
    invoice has it, that invoice is settled whatever its institution and
    the request's: it keeps its other fields and gets the status of the
    ledger stored under the request's string.  The lookup is by [_id]
    alone; [institution_id] is not consulted. *)
Theorem record_payment_looks_up_by_id_only payload d pay oid :
  Payment_new (rp_institution_id payload) (rp_invoice_id payload)
    (rp_amount payload) (rp_method payload) (rp_provider payload)
    (rp_txn_ref payload) = Return pay ->
  Bson.ObjectId_of_str (rp_invoice_id payload) = Some oid ->
  exists d',
    record_payment payload (Some d)
    = (Return {| id := Bson.str (fresh d) |}, Some d')
    /\ payment d' = payment d ++ [{| _id := fresh d; doc := pay |}]
    /\ match find_one_invoice d oid with
       | None => invoice d' = invoice d
       | Some inv =>
           exists inv',
             find_one_invoice d' oid = Some inv'
             /\ _id inv' = _id inv
             /\ same_but_status (doc inv) (doc inv')
             /\ inv_status (doc inv')
                = status_of (doc inv)
                    (filter (fun p => String.eqb (pay_invoice_id (doc p))
                                        (rp_invoice_id payload))
                       (payment d'))
       end.
Proof.
  intros Hpay Hoid. destruct (find_one_invoice d oid) as [inv|] eqn:Hfind.
  - eexists. split; [|split].
    + exact (record_payment_invoice payload d pay Hpay oid inv Hoid Hfind).
    + reflexivity.
    + eexists. split; [now apply find_one_invoice_updated|].
      split; [reflexivity|]. split; [|reflexivity].
      unfold same_but_status. cbn [doc]. now repeat split.
  - exists (insert_payment d pay).
    rewrite (record_payment_no_invoice payload d pay Hpay oid Hoid Hfind).
    now repeat split.
Qed.

Lemma record_payment_looks_up_by_id_only_witness :
  exists d',
    record_payment (Sample.payment_request "inst-b" Sample.first_id 500)
      (Some Sample.tuition)
    = (Return {| id := Bson.str (fresh Sample.tuition) |}, Some d')
    /\ payment d'
       = payment Sample.tuition
         ++ [{| _id := fresh Sample.tuition;
                doc := {| pay_institution_id := "inst-b";
                          pay_invoice_id := Sample.first_id;
                          pay_amount := 500;
                          pay_method := "upi";
                          pay_provider := None;
                          pay_txn_ref := None |} |}]
    /\ exists inv',
         find_one_invoice d' (fresh Sample.empty) = Some inv'
         /\ _id inv' = fresh Sample.empty
         /\ same_but_status (Sample.invoice_of 1000 18) (doc inv')
         /\ inv_status (doc inv')
            = status_of (Sample.invoice_of 1000 18)
                (filter (fun p => String.eqb (pay_invoice_id (doc p)) Sample.first_id)
                   (payment d')).
Proof.
  apply (record_payment_looks_up_by_id_only
           (Sample.payment_request "inst-b" Sample.first_id 500) Sample.tuition
           {| pay_institution_id := "inst-b";
              pay_invoice_id := Sample.first_id;
              pay_amount := 500;
              pay_method := "upi";
              pay_provider := None;
              pay_txn_ref := None |}
           (fresh Sample.empty));
    reflexivity.
Defined.

(** C4, as stated, fails: payments of amount zero and of a negative
    amount are accepted, stored and answered with their id. *)
Lemma record_payment_accepts_nonpositive_amounts :
  ((0 <=? 0) = true /\ (-50 <=? 0) = true)%float
  /\ record_payment (Sample.payment_request "inst-a" Sample.first_id 0)
       (Some Sample.tuition)
     = (Return {| id := "000000000000000000000001" |},
        Some (insert_payment Sample.tuition (doc (Sample.payment_of 0))))
  /\ record_payment (Sample.payment_request "inst-a" Sample.first_id (-50))
       (Some Sample.tuition)
     = (Return {| id := "000000000000000000000001" |},
        Some (insert_payment Sample.tuition (doc (Sample.payment_of (-50))))).
Proof.
  repeat split; vm_compute; reflexivity.
Qed.

(** C4, amended.  [record_payment] checks nothing about [amount]: whether
    the [Payment] constructor accepts the request depends on [method] and
    [provider] alone, and an accepted payment is written with the
    request's amount, whatever its sign.  The only rejection before the
    write is the constructor's: when it raises, [record_payment] raises
    the same error and the store is left as it was. *)
Theorem record_payment_validates_literals_only payload h :
  match Payment_new (rp_institution_id payload) (rp_invoice_id payload)
          (rp_amount payload) (rp_method payload) (rp_provider payload)
          (rp_txn_ref payload) with
  | Raise e =>
      record_payment payload h = (Raise e, h)
      /\ Literal methods (rp_method payload)
         && match rp_provider payload with
            | Some p => Literal providers p
            | None => true
            end = false
  | Return pay =>
      pay_amount pay = rp_amount payload
      /\ Literal methods (rp_method payload)
         && match rp_provider payload with
            | Some p => Literal providers p
            | None => true
            end = true
      /\ match h with
         | Some d =>
             exists r d',
               record_payment payload (Some d) = (r, Some d')
               /\ payment d' = payment d ++ [{| _id := fresh d; doc := pay |}]
         | None => record_payment payload None = (Raise DatabaseUnavailable, None)
         end
  end.
Proof.
  destruct (Payment_new _ _ _ _ _ _) as [pay|e] eqn:Hpay.
  - split; [|split].
    + now apply Payment_new_amount in Hpay.
    + unfold Payment_new in Hpay. now destruct (_ && _).
    + destruct h as [d|].
      * destruct (Bson.ObjectId_of_str (rp_invoice_id payload)) as [oid|] eqn:Hoid.
        -- destruct (find_one_invoice d oid) as [inv|] eqn:Hfind.
           ++ do 2 eexists. split.
              ** exact (record_payment_invoice payload d pay Hpay oid inv Hoid Hfind).
              ** reflexivity.
           ++ do 2 eexists. split.
              ** exact (record_payment_no_invoice payload d pay Hpay oid Hoid Hfind).
              ** reflexivity.
        -- do 2 eexists. split.
           ++ exact (record_payment_invalid_id payload d pay Hpay Hoid).
           ++ reflexivity.
      * unfold record_payment, bind, lift. now rewrite Hpay.
  - split.
    + now apply record_payment_rejected.
    + unfold Payment_new in Hpay. now destruct (_ && _).
Qed.

(** ** The tolerance boundary *)

(** C5, as stated, fails: against an amount due of exactly 100, a paid
    total of 99.99 is not [partially_paid]. *)
Lemma paid_total_99_99_is_not_partially_paid :
  due (Sample.invoice_of 100 0) = 100%float
  /\ paid_total [Sample.payment_of 99.99] = 99.99%float
  /\ status_of (Sample.invoice_of 100 0) [Sample.payment_of 99.99] <> partially_paid
  /\ Sample.statuses (Sample.pay_all [99.99%float] (Some Sample.hundred)) = [paid].
Proof.
  repeat split; try (vm_compute; reflexivity).
  vm_compute. discriminate.
Qed.

(** C5, amended.  Against an amount due of exactly 100 the threshold
    [due - 1e-2] is the float 99.99 and the comparison is [>=], so a paid
    total of 99.99 is already [paid]; so is 99.995; a paid total of 99.98
    is [partially_paid]. *)
Theorem tolerance_boundary inv ps1 ps2 ps3 :
  due inv = 100%float ->
  paid_total ps1 = 99.99%float ->
  paid_total ps2 = 99.995%float ->
  paid_total ps3 = 99.98%float ->
  status_of inv ps1 = paid
  /\ status_of inv ps2 = paid
  /\ status_of inv ps3 = partially_paid.
Proof.
  intros Hdue H1 H2 H3. unfold status_of.
  rewrite Hdue, H1, H2, H3. repeat split.
Qed.

Lemma tolerance_boundary_witness :
  status_of (Sample.invoice_of 100 0) [Sample.payment_of 99.99] = paid
  /\ status_of (Sample.invoice_of 100 0) [Sample.payment_of 99.995] = paid
  /\ status_of (Sample.invoice_of 100 0) [Sample.payment_of 99.98] = partially_paid.
Proof.
  apply (tolerance_boundary (Sample.invoice_of 100 0)
           [Sample.payment_of 99.99] [Sample.payment_of 99.995]
           [Sample.payment_of 99.98]);
    reflexivity.
Defined.

(** ** Invoice creation *)

(** C8. [create_invoice] on an available store either stores exactly one
    new invoice, whose status is [unpaid] whatever its items, and returns
    its id, or (when the currency is neither INR nor USD) raises and
    stores nothing.  The request model has no status field, so nothing
    the client sends can set the status; every invoice and payment
    already in the store is left as it was: nothing is settled. *)
Theorem create_invoice_is_unpaid payload d :
  if Literal currencies (Python.or_str (ci_currency payload) "INR") then
    exists inv,
      create_invoice payload (Some d)
      = (Return {| id := Bson.str (fresh d) |},
         Some {| invoice := invoice d ++ [{| _id := fresh d; doc := inv |}];
                 payment := payment d;
                 generated := N.succ (generated d) |})
      /\ inv_status inv = unpaid
      /\ inv_items inv = ci_items payload
      /\ inv_gst_percent inv = ci_gst_percent payload
  else
    create_invoice payload (Some d) = (Raise ValidationError, Some d).
Proof.
  unfold create_invoice, bind, lift, Invoice_new.
  destruct (Literal currencies _).
  - eexists. split; [reflexivity|]. cbn. auto.
  - reflexivity.
Qed.

(** ** What [record_payment] leaves alone *)

(** C9. Whatever the request, [record_payment] on an available store
    leaves an available store in which the invoice collection has the
    same documents in the same places, each with the same [_id] and with
    every field but [status] unchanged, those with another [_id] than the
    request's invoice id unchanged as a whole, and in which every payment
    document that was there is still there, unchanged and in place. *)
Theorem record_payment_frame payload d :
  exists d',
    snd (record_payment payload (Some d)) = Some d'
    /\ Forall2 (status_write (Bson.ObjectId_of_str (rp_invoice_id payload)))
         (invoice d) (invoice d')
    /\ firstn (List.length (payment d)) (payment d') = payment d.
Proof.
  destruct (record_payment_cases payload d)
    as [H | (pay & [H | (oid & st & -> & H)])];
    rewrite H; eexists; (split; [reflexivity|]);
    cbn [invoice payment insert_payment update_one_invoice]; split;
    auto using Forall2_unchanged, Forall2_update_first, firstn_app_all, firstn_all.
Qed.

(** ** Float addition *)

Lemma SF64add_comm x y : SF64add x y = SF64add y x.
Proof.
  destruct x as [[|]|[|]| |sx mx ex], y as [[|]|[|]| |sy my ey];
    try reflexivity.
  unfold SF64add, SFadd.
  now rewrite (Z.min_comm ex ey), Z.add_comm.
Qed.

Lemma add_comm (x y : float) : (x + y)%float = (y + x)%float.
Proof.
  apply Prim2SF_inj. rewrite !add_spec. apply SF64add_comm.
Qed.

(** Adding to the start value [0] of a sum: [0 + a] is [a], except that
    a negative zero becomes the positive one. *)
Lemma add_zero_l_spec (a : float) :
  Prim2SF (0 + a)%float
  = match Prim2SF a with
    | S754_zero _ => S754_zero false
    | y => y
    end.
Proof.
  rewrite add_spec. change (Prim2SF 0%float) with (S754_zero false).
  now destruct (Prim2SF a) as [[|]|[|]| |s m e].
Qed.

Lemma sum_pair_comm (a b : float) : Python.sum [a; b] = Python.sum [b; a].
Proof.
  unfold Python.sum. simpl. apply Prim2SF_inj.
  rewrite (add_spec (0 + a) b), (add_spec (0 + b) a), !add_zero_l_spec.
  destruct (Prim2SF a) as [[|]|[|]| |sa ma ea], (Prim2SF b) as [[|]|[|]| |sb mb eb];
    try reflexivity.
  apply SF64add_comm.
Qed.

(** ** Order of the payments *)

(** C2, as stated, fails: the same four payments give [partially_paid]
    in one order and [paid] in the reverse order, both when the status is
    computed from the ledger and when the payments are recorded one by
    one. *)
Lemma status_depends_on_payment_order :
  Permutation (map Sample.payment_of Sample.amounts)
    (map Sample.payment_of (rev Sample.amounts))
  /\ status_of (Sample.invoice_of 0x1.0000000000001p107 0)
       (map Sample.payment_of Sample.amounts) = partially_paid
  /\ status_of (Sample.invoice_of 0x1.0000000000001p107 0)
       (map Sample.payment_of (rev Sample.amounts)) = paid
  /\ Sample.statuses (Sample.pay_all Sample.amounts (Some Sample.large))
     = [partially_paid]
  /\ Sample.statuses (Sample.pay_all (rev Sample.amounts) (Some Sample.large))
     = [paid].
Proof.
  split.
  - rewrite map_rev. apply Permutation_rev.
  - repeat split; vm_compute; reflexivity.
Qed.

Lemma paid_total_short_ledger ps ps' :
  Permutation ps ps' -> (List.length ps <= 2)%nat -> paid_total ps = paid_total ps'.
Proof.
  intros Hperm Hlen.
  destruct ps as [|p [|q [|r ps]]]; simpl in Hlen; try lia.
  - apply Permutation_nil in Hperm. now subst.
  - apply Permutation_length_1_inv in Hperm. now subst.
  - apply Permutation_length_2_inv in Hperm. destruct Hperm as [->| ->].
    + reflexivity.
    + unfold paid_total. cbn [map]. apply sum_pair_comm.
Qed.

(** C2, amended.  The status is a function of the invoice's items, its
    tax percentage and the payment amounts in the order the store returns
    them; of the payments it uses only their float total, so ledgers with
    the same total get the same status.  That covers every reordering of
    a ledger of at most two payments; longer ledgers can change their
    total, and with it the status, when reordered, since float addition
    is not associative. *)
Theorem status_of_function_of_paid_total inv inv' ps ps' :
  inv_items inv = inv_items inv' ->
  inv_gst_percent inv = inv_gst_percent inv' ->
  paid_total ps = paid_total ps'
  \/ (Permutation ps ps' /\ (List.length ps <= 2)%nat) ->
  status_of inv ps = status_of inv' ps'.
Proof.
  intros Hitems Hgst Hps.
  assert (paid_total ps = paid_total ps') as Htotal.
  { destruct Hps as [H|[H1 H2]]; [exact H | now apply paid_total_short_ledger]. }
  unfold status_of, due, gst, items_total.
  now rewrite Hitems, Hgst, Htotal.
Qed.

Lemma status_of_function_of_paid_total_witness :
  status_of (Sample.invoice_of 1000 18) [Sample.payment_of 500; Sample.payment_of 680]
  = status_of (set_status paid (Sample.invoice_of 1000 18))
      [Sample.payment_of 680; Sample.payment_of 500].
Proof.
  apply (status_of_function_of_paid_total
           (Sample.invoice_of 1000 18) (set_status paid (Sample.invoice_of 1000 18))
           [Sample.payment_of 500; Sample.payment_of 680]
           [Sample.payment_of 680; Sample.payment_of 500]).
  - reflexivity.
  - reflexivity.
  - right. split; [apply perm_swap | simpl; lia].
Defined.

(** ** Adding a non-negative amount, subtracting a positive one *)

Module FloatArith.
Import FloatOrder FloatOrderFacts RoundingDefs Rounding.
#[local] Open Scope Z_scope.

Lemma shl_align_fst mx ex ez :
  ez <= ex -> Zpos (fst (shl_align mx ex ez)) = Zpos mx * 2 ^ (ex - ez).
Proof.
  intros Hle. unfold shl_align.
  destruct (ez - ex) as [|d|d] eqn:E; cbn [fst]; try lia.
  - replace (ex - ez) with 0 by lia. simpl. lia.
  - rewrite Pos_iter_xO. f_equal. f_equal. lia.
Qed.

Lemma aligned_value mx ex ez :
  -1074 <= ez -> ez <= ex ->
  Zpos (fst (shl_align mx ex ez)) * 2 ^ (ez + 1074) = Zpos mx * 2 ^ (ex + 1074).
Proof.
  intros H1 H2. rewrite shl_align_fst by exact H2.
  replace (ex + 1074) with ((ex - ez) + (ez + 1074)) by lia.
  rewrite (Z.pow_add_r 2 (ex - ez) (ez + 1074)) by lia. ring.
Qed.

Lemma bounded_emin mx ex : bounded prec emax mx ex = true -> -1074 <= ex.
Proof.
  intros Hb. destruct (bounded_inv _ _ Hb) as [Hcan _].
  rewrite <- Hcan, fexp64_eq. lia.
Qed.

(** The sum of two positive numbers is not below the first. *)
Lemma SF64add_ge mx ex mp ep :
  bounded prec emax mx ex = true ->
  bounded prec emax mp ep = true ->
  match SF64add (S754_finite false mx ex) (S754_finite false mp ep) with
  | S754_infinity s' => s' = false
  | S754_finite s' m' e' => s' = false /\ (ex < e' \/ (e' = ex /\ Zpos mx <= Zpos m'))
  | _ => False
  end.
Proof.
  intros Hx Hp. pose proof (bounded_emin _ _ Hx). pose proof (bounded_emin _ _ Hp).
  unfold SF64add, SFadd. cbn [cond_Zopp].
  set (ez := Z.min ex ep).
  assert (-1074 <= ez <= ex /\ ez <= ep) as (Hez & Hzp) by (unfold ez; lia).
  pose proof (aligned_value mx ex ez ltac:(lia) ltac:(lia)) as Hv.
  set (a := fst (shl_align mx ex ez)) in *.
  set (b := fst (shl_align mp ep ez)) in *.
  change (Zpos a + Zpos b) with (Zpos (a + b)). cbn [binary_normalize].
  apply binary_round_ge; [lia | exact Hx |].
  rewrite <- Hv. rewrite Pos2Z.inj_add.
  assert (0 < 2 ^ (ez + 1074)) by (apply Z.pow_pos_nonneg; lia). nia.
Qed.

(** Subtracting a positive number gives a result that is not above the
    number it is subtracted from. *)
Lemma SF64sub_le x mc ec :
  SpecFloat.valid_binary prec emax x = true ->
  bounded prec emax mc ec = true ->
  forall k, key x = Some k ->
  exists k', key (SF64sub x (S754_finite false mc ec)) = Some k' /\ lex_le k' k.
Proof.
  intros Hx Hc k Hk. pose proof (bounded_emin _ _ Hc) as Hec.
  destruct x as [sx|sx| |sx mx ex]; cbn [SpecFloat.valid_binary] in Hx.
  - injection Hk as <-. eexists. split; [reflexivity|]. simpl. lia.
  - exists k. split; [exact Hk|]. apply lex_le_lt_eq. now right.
  - discriminate.
  - pose proof (bounded_emin _ _ Hx) as Hex.
    unfold SF64sub, SFsub. cbn [cond_Zopp].
    set (ez := Z.min ex ec).
    assert (-1074 <= ez <= ex /\ ez <= ec) as (Hez & Hzc) by (unfold ez; lia).
    pose proof (aligned_value mx ex ez ltac:(lia) ltac:(lia)) as Hv.
    set (a := fst (shl_align mx ex ez)) in *.
    set (b := fst (shl_align mc ec ez)) in *.
    assert (0 < 2 ^ (ez + 1074)) as Hp2 by (apply Z.pow_pos_nonneg; lia).
    destruct sx; cbn [cond_Zopp].
    + injection Hk as <-.
      change (- Zpos a - Zpos b) with (Zneg (a + b)). cbn [binary_normalize].
      pose proof (binary_round_ge true (a + b) ez mx ex ltac:(lia) Hx) as H.
      rewrite <- Hv, Pos2Z.inj_add in H. specialize (H ltac:(nia)).
      destruct (binary_round prec emax true (a + b) ez) as [s'|s'| |s' m' e'];
        try contradiction.
      * subst s'. eexists. split; [reflexivity|]. simpl. lia.
      * destruct H as [-> H]. eexists. split; [reflexivity|]. simpl. lia.
    + injection Hk as <-.
      destruct (Zpos a - Zpos b) as [|q|q] eqn:E; cbn [binary_normalize].
      * eexists. split; [reflexivity|]. simpl. lia.
      * pose proof (binary_round_le false q ez mx ex ltac:(lia) Hx) as H.
        rewrite <- Hv in H. specialize (H ltac:(nia)).
        destruct (binary_round prec emax false q ez) as [s'|s'| |s' m' e'];
          try contradiction.
        -- subst s'. eexists. split; [reflexivity|]. simpl. lia.
        -- destruct H as [-> H]. eexists. split; [reflexivity|]. simpl. lia.
      * pose proof (binary_round_sign true q ez ltac:(lia)) as H.
        destruct (binary_round prec emax true q ez) as [s'|s'| |s' m' e'];
          try contradiction; subst s'; eexists; (split; [reflexivity|]); simpl; lia.
Qed.

#[local] Close Scope Z_scope.
#[local] Open Scope float_scope.

Lemma key_zero : key (Prim2SF 0) = Some (0, 0, 0)%Z.
Proof. reflexivity. Qed.

Lemma le_refl_of_key x k : key (Prim2SF x) = Some k -> le x x.
Proof.
  intros Hk. exists k, k. repeat split; trivial. apply lex_le_lt_eq. now right.
Qed.

Lemma le_defined_l x y : le x y -> le x x.
Proof. intros (k1 & k2 & H1 & _). now apply le_refl_of_key with k1. Qed.

Lemma lt_defined_l x y : lt x y -> le x x.
Proof. intros (k1 & k2 & H1 & _). now apply le_refl_of_key with k1. Qed.

(** [x - c <= x] for a positive finite [c], whenever [x] is a number. *)
Lemma sub_le (x c : float) mc ec :
  Prim2SF c = S754_finite false mc ec -> le x x -> le (x - c) x.
Proof.
  intros Hc (k & _ & Hk & _).
  pose proof (Prim2SF_valid c) as Hvc. rewrite Hc in Hvc.
  destruct (SF64sub_le (Prim2SF x) mc ec (Prim2SF_valid x) Hvc k Hk) as (k' & Hk' & Hle).
  exists k', k. rewrite sub_spec, Hc. now repeat split.
Qed.

(** [s <= s + p] for non-negative [s] and [p]. *)
Lemma add_nonneg_ge (s p : float) : le 0 s -> le 0 p -> le s (s + p).
Proof.
  intros (k0 & ks & H0 & Hs & Hles) (k0' & kp & H0' & Hp & Hlep).
  rewrite key_zero in H0, H0'. injection H0 as <-. injection H0' as <-.
  unfold le. rewrite add_spec.
  pose proof (Prim2SF_valid s) as Hvs. pose proof (Prim2SF_valid p) as Hvp.
  destruct (Prim2SF s) as [ss|[|]| |[|] ms es]; cbn [key] in Hs;
    try discriminate; injection Hs as <-; try (simpl in Hles; lia);
    destruct (Prim2SF p) as [sp|[|]| |[|] mp ep]; cbn [key] in Hp;
    try discriminate; injection Hp as <-; try (simpl in Hlep; lia).
  - destruct ss, sp; do 2 eexists; (split; [reflexivity|]);
      (split; [reflexivity|]); simpl; lia.
  - destruct ss; do 2 eexists; (split; [reflexivity|]);
      (split; [reflexivity|]); simpl; lia.
  - destruct ss; do 2 eexists; (split; [reflexivity|]);
      (split; [reflexivity|]); simpl; lia.
  - do 2 eexists; (split; [reflexivity|]); (split; [reflexivity|]); simpl; lia.
  - do 2 eexists; (split; [reflexivity|]); (split; [reflexivity|]); simpl; lia.
  - do 2 eexists; (split; [reflexivity|]); (split; [reflexivity|]); simpl; lia.
  - do 2 eexists; (split; [reflexivity|]); (split; [reflexivity|]); simpl; lia.
  - do 2 eexists; (split; [reflexivity|]); (split; [reflexivity|]); simpl; lia.
  - cbn [SpecFloat.valid_binary] in Hvs, Hvp.
    pose proof (SF64add_ge ms es mp ep Hvs Hvp) as H.
    destruct (SF64add _ _) as [s'|s'| |s' m' e']; try contradiction.
    + subst s'. do 2 eexists; (split; [reflexivity|]); (split; [reflexivity|]).
      simpl; lia.
    + destruct H as [-> H]. do 2 eexists; (split; [reflexivity|]);
        (split; [reflexivity|]). simpl; lia.
Qed.

Lemma fold_left_add_ge (l : list float) (acc : float) :
  le 0 acc -> Forall (fun a => le 0 a) l ->
  le acc (fold_left PrimFloat.add l acc).
Proof.
  revert acc. induction l as [|a l IH]; intros acc Hacc Hl; simpl.
  - destruct Hacc as (k0 & ka & H0 & Ha & Hle). now apply le_refl_of_key with ka.
  - inversion Hl as [|? ? Ha Hl']; subst.
    pose proof (add_nonneg_ge acc a Hacc Ha) as Hstep.
    apply le_trans with (1 := Hstep). apply IH; [|exact Hl'].
    now apply le_trans with acc.
Qed.

(** The tax on an items total of zero is zero for a finite percentage,
    and so is the amount due. *)
Lemma zero_items_due (g : float) :
  is_finite g = true -> 0 + g * 0 / 100 = 0.
Proof.
  intros Hfin. apply Prim2SF_inj.
  rewrite add_spec, div_spec, mul_spec.
  change (Prim2SF 0) with (S754_zero false).
  change (Prim2SF 100) with (S754_finite false 7036874417766400 (-46)).
  unfold is_finite in Hfin. apply negb_true_iff, orb_false_iff in Hfin.
  destruct Hfin as [Hnan Hinf].
  unfold Prim2SF. rewrite Hnan, Hinf.
  destruct (is_zero g); [now destruct (get_sign g)|].
  destruct (Z.frexp g) as [r ex]. destruct (shr_fexp _ _ _ _ _) as [mrs e'].
  destruct (shr_m mrs); [reflexivity | now destruct (get_sign g) | reflexivity].
Qed.

End FloatArith.

(** ** Coverage *)

Section Coverage.

Import FloatOrder FloatOrderFacts FloatArith.
#[local] Open Scope float_scope.

Lemma status_of_rank_mono inv ps ps' :
  (paid_total ps <=? paid_total ps') = true ->
  (rank (status_of inv ps) <= rank (status_of inv ps'))%nat.
Proof.
  intros Hle. apply leb_le in Hle. unfold status_of.
  destruct (due inv - 1e-2 <=? paid_total ps) eqn:E1.
  - apply leb_le in E1.
    assert ((due inv - 1e-2 <=? paid_total ps') = true) as ->
      by (apply leb_le; now apply le_trans with (paid_total ps)).
    apply Nat.le_refl.
  - destruct (0 <? paid_total ps) eqn:E2.
    + apply ltb_lt in E2.
      assert ((0 <? paid_total ps') = true) as ->
        by (apply ltb_lt; now apply lt_le_trans with (paid_total ps)).
      destruct (due inv - 1e-2 <=? paid_total ps'); simpl; auto with arith.
    + simpl. auto with arith.
Qed.

Lemma paid_total_app ps extra :
  paid_total (ps ++ extra)
  = fold_left PrimFloat.add (map (fun p => pay_amount (doc p)) extra) (paid_total ps).
Proof.
  unfold paid_total, Python.sum. now rewrite map_app, fold_left_app.
Qed.

Lemma nonnegative_amounts ps :
  Forall nonnegative ps -> Forall (fun a => le 0 a) (map (fun p => pay_amount (doc p)) ps).
Proof.
  intros H. apply Forall_map. eapply Forall_impl; [|exact H].
  intros p Hp. now apply leb_le.
Qed.

Lemma paid_total_nonneg ps : Forall nonnegative ps -> le 0 (paid_total ps).
Proof.
  intros H. unfold paid_total, Python.sum.
  apply fold_left_add_ge; [now apply le_refl_of_key with (0, 0, 0)%Z|].
  now apply nonnegative_amounts.
Qed.

Lemma paid_total_app_ge ps extra :
  Forall nonnegative (ps ++ extra) -> le (paid_total ps) (paid_total (ps ++ extra)).
Proof.
  intros H. apply Forall_app in H. destruct H as [Hps Hextra].
  rewrite paid_total_app. apply fold_left_add_ge.
  - now apply paid_total_nonneg.
  - now apply nonnegative_amounts.
Qed.

Lemma overpaid_is_paid inv ps :
  (due inv <? paid_total ps) = true -> status_of inv ps = paid.
Proof.
  intros H. apply ltb_lt in H. unfold status_of.
  assert ((due inv - 1e-2 <=? paid_total ps) = true) as ->; [|reflexivity].
  apply leb_le. apply le_trans with (due inv); [|now apply lt_le].
  apply sub_le with (mc := 5764607523034235%positive) (ec := (-59)%Z);
    [reflexivity | now apply lt_defined_l with (paid_total ps)].
Qed.

End Coverage.

(** C6, as stated, fails: [record_payment] accepts a payment of negative
    amount, and with it a ledger that contains an earlier one can have a
    smaller total and an earlier status: an invoice that was [paid] is
    [partially_paid] after the additional payment.  It accepts an amount
    that is a NaN as well, which is not negative and after which the
    total is a NaN: the invoice that was [paid] is [unpaid]. *)
Lemma additional_payment_can_regress :
  status_of (Sample.invoice_of 1000 18) [Sample.payment_of 1180] = paid
  /\ status_of (Sample.invoice_of 1000 18)
       ([Sample.payment_of 1180] ++ [Sample.payment_of (-500)]) = partially_paid
  /\ Sample.statuses (Sample.pay_all [1180%float] (Some Sample.tuition)) = [paid]
  /\ Sample.statuses (Sample.pay_all [1180%float; (-500)%float] (Some Sample.tuition))
     = [partially_paid]
  /\ (nan <? 0)%float = false
  /\ status_of (Sample.invoice_of 1000 18)
       ([Sample.payment_of 1180] ++ [Sample.payment_of nan]) = unpaid
  /\ Sample.statuses (Sample.pay_all [1180%float; nan] (Some Sample.tuition))
     = [unpaid].
Proof.
  repeat split; vm_compute; reflexivity.
Qed.

(** C6, amended.  For a fixed invoice, if the paid total of one ledger is
    the same as or larger than that of another, as it is when the first
    continues the second and every amount in it is a number that is at
    least zero (so none is negative and none is a NaN), its status is not
    earlier in the order unpaid, partially_paid, paid; in particular
    [paid] stays [paid]; and a paid total strictly above the amount due
    is [paid]: there is no further status.  (A payment whose amount is
    negative or a NaN is accepted and can lower the total or make it a
    NaN, hence the condition.) *)
Theorem status_never_regresses inv ps ps' :
  (paid_total ps <=? paid_total ps')%float = true
  \/ (exists extra, ps' = ps ++ extra /\ Forall nonnegative ps') ->
  (rank (status_of inv ps) <= rank (status_of inv ps'))%nat
  /\ match status_of inv ps with
     | paid => status_of inv ps' = paid
     | _ => True
     end
  /\ if (due inv <? paid_total ps')%float then status_of inv ps' = paid else True.
Proof.
  intros H.
  assert ((paid_total ps <=? paid_total ps')%float = true) as Hle.
  { destruct H as [H | (extra & -> & Hall)]; [exact H|].
    apply FloatOrderFacts.leb_le. now apply paid_total_app_ge. }
  pose proof (status_of_rank_mono inv ps ps' Hle) as Hrank.
  split; [exact Hrank | split].
  - destruct (status_of inv ps) eqn:E; trivial.
    destruct (status_of inv ps'); simpl in Hrank; trivial; lia.
  - destruct (due inv <? paid_total ps')%float eqn:E; trivial.
    now apply overpaid_is_paid.
Qed.

Lemma status_never_regresses_witness :
  (rank (status_of (Sample.invoice_of 1000 18) [Sample.payment_of 500])
   <= rank (status_of (Sample.invoice_of 1000 18)
              (map Sample.payment_of [500; 680; 50]%float)))%nat
  /\ match status_of (Sample.invoice_of 1000 18) [Sample.payment_of 500] with
     | paid => status_of (Sample.invoice_of 1000 18)
                 (map Sample.payment_of [500; 680; 50]%float) = paid
     | _ => True
     end
  /\ if (due (Sample.invoice_of 1000 18)
         <? paid_total (map Sample.payment_of [500; 680; 50]%float))%float
     then status_of (Sample.invoice_of 1000 18)
            (map Sample.payment_of [500; 680; 50]%float) = paid
     else True.
Proof.
  apply (status_never_regresses (Sample.invoice_of 1000 18)
           [Sample.payment_of 500] (map Sample.payment_of [500; 680; 50]%float)).
  right. exists (map Sample.payment_of [680; 50]%float). split.
  - reflexivity.
  - repeat constructor.
Defined.

(** ** Invoices without items *)

(** C7, as stated, fails twice.  With a tax percentage that is not a
    finite number the amount due of an invoice without items is not zero
    but a NaN, which no paid total reaches, so a payment of 5 leaves the
    invoice [partially_paid].  And with a finite percentage, a payment of
    an amount >= 0 that follows an accepted payment whose amount is
    negative, or a NaN, leaves the invoice [unpaid]. *)
Lemma no_items_is_not_always_paid :
  (0 <=? 5)%float = true
  /\ PrimFloat.is_nan (due (Sample.no_items infinity)) = true
  /\ status_of (Sample.no_items infinity) [Sample.payment_of 5] = partially_paid
  /\ (0 <=? 1)%float = true
  /\ due (Sample.no_items 0) = 0%float
  /\ status_of (Sample.no_items 0) [Sample.payment_of (-5); Sample.payment_of 1]
     = unpaid
  /\ Sample.statuses (Sample.pay_all [(-5)%float; 1%float] (Some Sample.itemless))
     = [unpaid]
  /\ (nan <? 0)%float = false
  /\ status_of (Sample.no_items 0) [Sample.payment_of nan; Sample.payment_of 1]
     = unpaid
  /\ Sample.statuses (Sample.pay_all [nan; 1%float] (Some Sample.itemless))
     = [unpaid].
Proof.
  repeat split; vm_compute; reflexivity.
Qed.

(** C7, amended.  For an invoice without items whose tax percentage is a
    finite number, the amount due is the tax on an items total of zero,
    which is zero; computing it divides by 100 only; and the status is
    [paid] for every ledger in which every amount is a number that is at
    least zero (so none is negative and none is a NaN). *)
Theorem no_items_paid inv ps :
  inv_items inv = [] ->
  PrimFloat.is_finite (inv_gst_percent inv) = true ->
  Forall nonnegative ps ->
  due inv = (0 + inv_gst_percent inv * 0 / 100)%float
  /\ due inv = 0%float
  /\ status_of inv ps = paid.
Proof.
  intros Hitems Hfin Hps.
  assert (due inv = (0 + inv_gst_percent inv * 0 / 100)%float) as Hdue.
  { unfold due, gst, items_total. now rewrite Hitems. }
  split; [exact Hdue|]. rewrite Hdue, (FloatArith.zero_items_due _ Hfin).
  split; [reflexivity|].
  unfold status_of. rewrite Hdue, (FloatArith.zero_items_due _ Hfin).
  assert ((0 - 1e-2 <=? paid_total ps)%float = true) as ->; [|reflexivity].
  apply FloatOrderFacts.leb_le.
  apply FloatOrderFacts.le_trans with 0%float.
  - apply FloatOrderFacts.leb_le. reflexivity.
  - now apply paid_total_nonneg.
Qed.

Lemma no_items_paid_witness :
  due (Sample.no_items 18) = (0 + 18 * 0 / 100)%float
  /\ due (Sample.no_items 18) = 0%float
  /\ status_of (Sample.no_items 18) (map Sample.payment_of [0; 250]%float) = paid.
Proof.
  apply (no_items_paid (Sample.no_items 18) (map Sample.payment_of [0; 250]%float)).
  - reflexivity.
  - reflexivity.
  - repeat constructor.
Defined.

(** * Further properties of the code *)

(** ** The settlement status at its edges *)

Section SettlementEdges.

Import FloatOrder FloatOrderFacts FloatArith.
#[local] Open Scope float_scope.

(** X1. A ledger whose float total reaches the amount due is [paid]: the
    threshold [due - 1e-2] never rounds above [due]. *)
Theorem paid_in_full inv ps :
  (due inv <=? paid_total ps) = true -> status_of inv ps = paid.
Proof.
  intros H. apply leb_le in H. unfold status_of.
  assert ((due inv - 1e-2 <=? paid_total ps) = true) as ->; [|reflexivity].
  apply leb_le. apply le_trans with (due inv); [|exact H].
  apply sub_le with (mc := 5764607523034235%positive) (ec := (-59)%Z);
    [reflexivity | now apply le_defined_l with (paid_total ps)].
Qed.

Lemma paid_in_full_witness :
  status_of (Sample.invoice_of 1000 18) (map Sample.payment_of [500; 680]) = paid.
Proof.
  apply (paid_in_full (Sample.invoice_of 1000 18) (map Sample.payment_of [500; 680])).
  reflexivity.
Defined.

Lemma is_nan_eq (a : float) : PrimFloat.is_nan a = true -> a = nan.
Proof.
  unfold PrimFloat.is_nan. rewrite negb_true_iff, eqb_spec.
  intros H. apply Prim2SF_inj. change (Prim2SF nan) with S754_nan.
  unfold SFeqb in H. rewrite SFcompare_key in H.
  destruct (Prim2SF a) as [s|s| |s m e]; try reflexivity; exfalso;
    cbn [key] in H.
  - discriminate.
  - destruct s; discriminate.
  - destruct s; cbn [lex] in H; rewrite !Z.compare_refl in H; discriminate.
Qed.

Lemma add_nan_l (x : float) : nan + x = nan.
Proof.
  apply Prim2SF_inj. rewrite add_spec. change (Prim2SF nan) with S754_nan.
  reflexivity.
Qed.

Lemma add_nan_r (x : float) : x + nan = nan.
Proof. rewrite add_comm. apply add_nan_l. Qed.

Lemma fold_left_add_nan (l : list float) : fold_left PrimFloat.add l nan = nan.
Proof.
  induction l as [|a l IH]; simpl; [reflexivity|]. now rewrite add_nan_l.
Qed.

Lemma sum_with_nan (l : list float) (acc : float) :
  Exists (fun a => PrimFloat.is_nan a = true) l ->
  fold_left PrimFloat.add l acc = nan.
Proof.
  intros H. revert acc. induction H as [a l Ha | a l _ IH]; intros acc; simpl.
  - rewrite (is_nan_eq a Ha), add_nan_r. apply fold_left_add_nan.
  - apply IH.
Qed.

(** X2. One payment whose amount is a NaN makes the total a NaN, which
    neither reaches a threshold nor exceeds zero: the status is [unpaid]
    whatever the invoice and the other payments are. *)
Theorem nan_payment_unpaid inv ps :
  Exists (fun p => PrimFloat.is_nan (pay_amount (doc p)) = true) ps ->
  status_of inv ps = unpaid.
Proof.
  intros H.
  assert (paid_total ps = nan) as Htotal.
  { unfold paid_total, Python.sum. apply sum_with_nan.
    apply Exists_exists in H. destruct H as (p & Hin & Hp).
    apply Exists_exists. exists (pay_amount (doc p)). split; [|exact Hp].
    apply in_map_iff. now exists p. }
  unfold status_of. rewrite Htotal.
  assert (forall x, (x <=? nan) = false) as Hle.
  { intros x. rewrite leb_spec. change (Prim2SF nan) with S754_nan.
    unfold SFleb. now destruct (Prim2SF x) as [[|]|[|]| |[|] m e]. }
  assert (forall x, (x <? nan) = false) as Hlt.
  { intros x. rewrite ltb_spec. change (Prim2SF nan) with S754_nan.
    unfold SFltb. now destruct (Prim2SF x) as [[|]|[|]| |[|] m e]. }
  now rewrite Hle, Hlt.
Qed.

Lemma nan_payment_unpaid_witness :
  status_of (Sample.invoice_of 1000 18)
    (map Sample.payment_of [1180; nan; 5000]) = unpaid.
Proof.
  apply (nan_payment_unpaid (Sample.invoice_of 1000 18)
           (map Sample.payment_of [1180; nan; 5000])).
  apply Exists_cons_tl, Exists_cons_hd. reflexivity.
Defined.

(** X3. After a payment of positive amount is added to a ledger in which
    every amount is a number that is at least zero (so none is negative
    and none is a NaN), the status is not [unpaid]. *)
Theorem positive_payment_not_unpaid inv ps p :
  Forall nonnegative ps ->
  (0 <? pay_amount (doc p)) = true ->
  status_of inv (ps ++ [p]) <> unpaid.
Proof.
  intros Hps Hp. apply ltb_lt in Hp.
  assert ((0 <? paid_total (ps ++ [p])) = true) as Hpos.
  { apply ltb_lt. apply lt_le_trans with (1 := Hp).
    rewrite paid_total_app. cbn [map fold_left]. rewrite add_comm.
    apply add_nonneg_ge; [now apply lt_le | now apply paid_total_nonneg]. }
  unfold status_of. rewrite Hpos.
  destruct (_ <=? _); discriminate.
Qed.

Lemma positive_payment_not_unpaid_witness :
  status_of (Sample.invoice_of 1000 18)
    (map Sample.payment_of [0; 100] ++ [Sample.payment_of 0.5]) <> unpaid.
Proof.
  apply (positive_payment_not_unpaid (Sample.invoice_of 1000 18)
           (map Sample.payment_of [0; 100]) (Sample.payment_of 0.5)).
  - repeat constructor.
  - reflexivity.
Defined.

Lemma finite_cases (g : float) :
  PrimFloat.is_finite g = true ->
  match Prim2SF g with
  | S754_zero _ | S754_finite _ _ _ => True
  | _ => False
  end.
Proof.
  intros Hfin. unfold PrimFloat.is_finite in Hfin.
  apply negb_true_iff, orb_false_iff in Hfin. destruct Hfin as [Hnan Hinf].
  unfold Prim2SF. rewrite Hnan, Hinf.
  destruct (is_zero g); [exact I|].
  destruct (Z.frexp g) as [r ex]. destruct (shr_fexp _ _ _ _ _) as [mrs e'].
  now destruct (shr_m mrs).
Qed.

(** X4. With a tax percentage of zero, the default, the amount due is the
    items total, provided that total is a finite number. *)
Theorem due_without_tax inv :
  inv_gst_percent inv = 0 ->
  PrimFloat.is_finite (items_total inv) = true ->
  due inv = items_total inv.
Proof.
  intros Hgst Hfin. unfold due, gst. rewrite Hgst.
  apply finite_cases in Hfin. apply Prim2SF_inj.
  rewrite add_spec, div_spec, mul_spec.
  change (Prim2SF 0) with (S754_zero false).
  change (Prim2SF 100) with (S754_finite false 7036874417766400 (-46)).
  destruct (Prim2SF (items_total inv)) as [[|]|s| |s m e];
    try contradiction; reflexivity.
Qed.

Lemma due_without_tax_witness :
  due (Sample.invoice_of 1000 0) = items_total (Sample.invoice_of 1000 0).
Proof.
  apply (due_without_tax (Sample.invoice_of 1000 0)); reflexivity.
Defined.

End SettlementEdges.

(** ** The ledger of an invoice id *)

Lemma record_payment_ledger payload d :
  exists d',
    snd (record_payment payload (Some d)) = Some d'
    /\ (payment d' = payment d
        \/ exists pay,
             Payment_new (rp_institution_id payload) (rp_invoice_id payload)
               (rp_amount payload) (rp_method payload) (rp_provider payload)
               (rp_txn_ref payload) = Return pay
             /\ payment d' = payment d ++ [{| _id := fresh d; doc := pay |}]).
Proof.
  destruct (Payment_new (rp_institution_id payload) (rp_invoice_id payload)
              (rp_amount payload) (rp_method payload) (rp_provider payload)
              (rp_txn_ref payload)) as [pay|e] eqn:Hpay.
  - destruct (Bson.ObjectId_of_str (rp_invoice_id payload)) as [oid|] eqn:Hoid.
    + destruct (find_one_invoice d oid) as [inv|] eqn:Hfind.
      * rewrite (record_payment_invoice payload d pay Hpay oid inv Hoid Hfind).
        eexists. split; [reflexivity|]. right. exists pay. now split.
      * rewrite (record_payment_no_invoice payload d pay Hpay oid Hoid Hfind).
        eexists. split; [reflexivity|]. right. exists pay. now split.
    + rewrite (record_payment_invalid_id payload d pay Hpay Hoid).
      eexists. split; [reflexivity|]. right. exists pay. now split.
  - rewrite (record_payment_rejected payload (Some d) e Hpay).
    eexists. split; [reflexivity|]. now left.
Qed.

(** X5. Recording a payment leaves the ledger of every other invoice id
    string as it was: the payments stored under a string [s] that is not
    the request's [invoice_id] are the same before and after. *)
Theorem record_payment_other_ledgers payload d s :
  s <> rp_invoice_id payload ->
  exists d',
    snd (record_payment payload (Some d)) = Some d'
    /\ find_payment d' s = find_payment d s.
Proof.
  intros Hs. destruct (record_payment_ledger payload d) as (d' & Hd' & Hpay).
  exists d'. split; [exact Hd'|]. unfold find_payment.
  destruct Hpay as [-> | (pay & Hnew & ->)]; [reflexivity|].
  rewrite filter_app. cbn [filter doc].
  apply Payment_new_amount in Hnew. destruct Hnew as (_ & -> & _).
  replace (String.eqb (rp_invoice_id payload) s) with false.
  - apply app_nil_r.
  - symmetry. apply String.eqb_neq. congruence.
Qed.

Lemma record_payment_other_ledgers_witness :
  exists d',
    snd (record_payment (Sample.payment_request "inst-a" Sample.other_id 500)
           (Some Sample.tuition)) = Some d'
    /\ find_payment d' Sample.first_id = find_payment Sample.tuition Sample.first_id.
Proof.
  apply (record_payment_other_ledgers
           (Sample.payment_request "inst-a" Sample.other_id 500)
           Sample.tuition Sample.first_id).
  discriminate.
Defined.

(** X6. The ledger is keyed by the spelling of the id.  If no stored
    payment carries exactly the request's [invoice_id] string, the invoice
    that the id denotes keeps its other fields and gets the status that
    the new payment alone gives, whatever payments the store holds under
    other strings, other spellings of the same ObjectId included. *)
Theorem record_payment_first_under_spelling payload d pay oid inv :
  Payment_new (rp_institution_id payload) (rp_invoice_id payload)
    (rp_amount payload) (rp_method payload) (rp_provider payload)
    (rp_txn_ref payload) = Return pay ->
  Bson.ObjectId_of_str (rp_invoice_id payload) = Some oid ->
  find_one_invoice d oid = Some inv ->
  find_payment d (rp_invoice_id payload) = [] ->
  exists d' inv',
    snd (record_payment payload (Some d)) = Some d'
    /\ find_one_invoice d' oid = Some inv'
    /\ _id inv' = _id inv
    /\ same_but_status (doc inv) (doc inv')
    /\ inv_status (doc inv')
       = (if (due (doc inv) - 1e-2 <=? 0 + rp_amount payload)%float
          then paid
          else if (0 <? 0 + rp_amount payload)%float
               then partially_paid
               else unpaid).
Proof.
  intros Hpay Hoid Hfind Hnone.
  rewrite (record_payment_invoice payload d pay Hpay oid inv Hoid Hfind).
  eexists. eexists. split; [reflexivity|].
  split; [now apply find_one_invoice_updated|].
  split; [reflexivity|]. split.
  { unfold same_but_status. cbn [doc]. now repeat split. }
  cbn [doc inv_status set_status].
  unfold find_payment in *. cbn [payment insert_payment].
  rewrite filter_app, Hnone. cbn [filter doc app].
  destruct (Payment_new_amount _ _ _ _ _ _ _ Hpay) as (Hamount & -> & _).
  rewrite String.eqb_refl.
  unfold status_of, paid_total, Python.sum. cbn [map fold_left doc].
  now rewrite Hamount.
Qed.

Lemma record_payment_first_under_spelling_witness :
  exists d' inv',
    snd (record_payment
           (Sample.payment_request "inst-a" "00000000000000000000000a" 1)
           (Some Sample.lettered)) = Some d'
    /\ find_one_invoice d' (Bson.octets 12 10) = Some inv'
    /\ _id inv' = Bson.octets 12 10
    /\ same_but_status (Sample.invoice_of 1000 18) (doc inv')
    /\ inv_status (doc inv')
       = (if (due (Sample.invoice_of 1000 18) - 1e-2 <=? 0 + 1)%float
          then paid
          else if (0 <? 0 + 1)%float
               then partially_paid
               else unpaid).
Proof.
  apply (record_payment_first_under_spelling
           (Sample.payment_request "inst-a" "00000000000000000000000a" 1)
           Sample.lettered
           {| pay_institution_id := "inst-a";
              pay_invoice_id := "00000000000000000000000a";
              pay_amount := 1;
              pay_method := "upi";
              pay_provider := None;
              pay_txn_ref := None |}
           (Bson.octets 12 10)
           {| _id := Bson.octets 12 10; doc := Sample.invoice_of 1000 18 |});
    reflexivity.
Defined.

(** ** Identifiers and [to_oid] *)

Lemma hex_octet (c : ascii) :
  let n := N_of_ascii c in
  Bson.is_space (Bson.hex_digit (n / 16)) = false
  /\ Bson.hex_value (Bson.hex_digit (n / 16)) = Some (n / 16)%N
  /\ Bson.hex_value (Bson.hex_digit (n mod 16)) = Some (n mod 16)%N
  /\ ascii_of_N (16 * (n / 16) + n mod 16) = c.
Proof.
  destruct c as [[|] [|] [|] [|] [|] [|] [|] [|]]; vm_compute; repeat split.
Qed.

Lemma fromhex_str (oid : Bson.ObjectId) : Bson.fromhex (Bson.str oid) = Some oid.
Proof.
  induction oid as [|c oid IH]; [reflexivity|].
  cbn [Bson.str]. cbv zeta. cbn [Bson.fromhex].
  destruct (hex_octet c) as (H1 & H2 & H3 & H4). cbv zeta in H1, H2, H3, H4.
  now rewrite H1, H2, H3, IH, H4.
Qed.

Lemma length_str (oid : Bson.ObjectId) :
  String.length (Bson.str oid) = 2 * String.length oid.
Proof.
  induction oid as [|c oid IH]; [reflexivity|].
  cbn [Bson.str String.length]. cbv zeta. cbn [String.length]. lia.
Qed.

Lemma ObjectId_of_str_str (oid : Bson.ObjectId) :
  String.length oid = 12 -> Bson.ObjectId_of_str (Bson.str oid) = Some oid.
Proof.
  intros Hlen. unfold Bson.ObjectId_of_str.
  rewrite length_str, Hlen. cbn [Nat.mul Nat.add Nat.eqb].
  apply fromhex_str.
Qed.

(** X7. [to_oid] accepts the string form of every twelve-octet ObjectId
    and gives that ObjectId back. *)
Theorem to_oid_str (oid : Bson.ObjectId) :
  String.length oid = 12 -> to_oid (Bson.str oid) = Return oid.
Proof.
  intros Hlen. unfold to_oid.
  now rewrite (ObjectId_of_str_str oid Hlen).
Qed.

Lemma to_oid_str_witness :
  to_oid (Bson.str (Bson.octets 12 3054)) = Return (Bson.octets 12 3054).
Proof.
  apply (to_oid_str (Bson.octets 12 3054)). reflexivity.
Defined.

(** The characters of a string. *)
Lemma fromhex_characters (s : string) :
  (forall b, Bson.fromhex s = Some b ->
     forall c, In c (list_ascii_of_string s) ->
       Bson.is_space c = true \/ Bson.hex_value c <> None)
  /\ (forall c0 b, Bson.fromhex (String c0 s) = Some b ->
        forall c, In c (list_ascii_of_string (String c0 s)) ->
          Bson.is_space c = true \/ Bson.hex_value c <> None).
Proof.
  induction s as [|c1 s [IH1 IH2]].
  - split; [intros b _ c []|].
    intros c0 b H c [<-|[]]. cbn [Bson.fromhex] in H.
    destruct (Bson.is_space c0); [now left|].
    now destruct (Bson.hex_value c0).
  - split; [exact (IH2 c1)|].
    intros c0 b H c Hin. cbn [Bson.fromhex] in H.
    destruct (Bson.is_space c0) eqn:Hsp.
    + destruct Hin as [<-|Hin]; [now left|]. now apply (IH2 c1 b).
    + destruct (Bson.hex_value c0) as [hi|] eqn:Hhi; [|discriminate].
      destruct (Bson.hex_value c1) as [lo|] eqn:Hlo; [|discriminate].
      destruct (Bson.fromhex s) as [tl|] eqn:Htl; [|discriminate].
      destruct Hin as [<-|[<-|Hin]].
      * right. congruence.
      * right. congruence.
      * now apply (IH1 tl).
Qed.

(** X8. [to_oid] raises the HTTP 400 error "Invalid id" for every string
    that does not have 24 characters and for every string containing a
    character that is neither a hexadecimal digit nor white space. *)
Theorem to_oid_rejects (s : string) :
  String.length s <> 24
  \/ (exists c, In c (list_ascii_of_string s)
                /\ Bson.is_space c = false /\ Bson.hex_value c = None) ->
  to_oid s = Raise (HTTPException 400 "Invalid id").
Proof.
  intros H. unfold to_oid, Bson.ObjectId_of_str.
  destruct (String.length s =? 24)%nat eqn:Hlen.
  - destruct H as [H | (c & Hin & Hsp & Hhex)].
    + apply Nat.eqb_eq in Hlen. contradiction.
    + destruct (Bson.fromhex s) as [b|] eqn:Hb; [|reflexivity].
      destruct (proj1 (fromhex_characters s) b Hb c Hin) as [H1|H1].
      * rewrite H1 in Hsp. discriminate.
      * contradiction.
  - reflexivity.
Qed.

Lemma to_oid_rejects_witness :
  to_oid "00000000000000000000000g" = Raise (HTTPException 400 "Invalid id").
Proof.
  apply (to_oid_rejects "00000000000000000000000g").
  right. exists "g"%char. split; [|split; reflexivity].
  simpl. repeat (try (left; reflexivity); right).
Defined.

Lemma length_append (s t : string) :
  String.length (s ++ t)%string = String.length s + String.length t.
Proof.
  induction s as [|c s IH]; simpl; [reflexivity | now rewrite IH].
Qed.

Lemma length_octets (k : nat) (n : N) : String.length (Bson.octets k n) = k.
Proof.
  revert n. induction k as [|k IH]; intros n; [reflexivity|].
  cbn [Bson.octets]. rewrite length_append, IH. simpl. lia.
Qed.

Lemma find_app_none {A} (f : A -> bool) (l : list A) (x : A) :
  Forall (fun y => f y = false) l -> f x = true -> find f (l ++ [x]) = Some x.
Proof.
  intros Hl Hx. induction Hl as [|y l Hy _ IH]; simpl.
  - now rewrite Hx.
  - now rewrite Hy.
Qed.

(** ** From creation to payment *)

(** X9. The id that [create_invoice] returns denotes the created invoice
    in [record_payment].  In a store where no invoice has the identifier
    about to be generated and no payment is stored under its string, an
    accepted payment against the returned id finds the new invoice, which
    keeps its other fields and gets the status of that payment alone:
    [paid] if the amount reaches the amount due less 0.01, else
    [partially_paid] if it is positive, else [unpaid]. *)
Theorem create_invoice_then_record_payment payload d request pay :
  Literal currencies (Python.or_str (ci_currency payload) "INR") = true ->
  Forall (fun x => _id x <> fresh d) (invoice d) ->
  find_payment d (Bson.str (fresh d)) = [] ->
  rp_invoice_id request = Bson.str (fresh d) ->
  Payment_new (rp_institution_id request) (rp_invoice_id request)
    (rp_amount request) (rp_method request) (rp_provider request)
    (rp_txn_ref request) = Return pay ->
  exists inv d1 d2 inv',
    create_invoice payload (Some d)
    = (Return {| id := Bson.str (fresh d) |}, Some d1)
    /\ inv_items inv = ci_items payload
    /\ inv_gst_percent inv = ci_gst_percent payload
    /\ inv_status inv = unpaid
    /\ find_one_invoice d1 (fresh d) = Some {| _id := fresh d; doc := inv |}
    /\ snd (record_payment request (Some d1)) = Some d2
    /\ find_one_invoice d2 (fresh d) = Some inv'
    /\ _id inv' = fresh d
    /\ same_but_status inv (doc inv')
    /\ inv_status (doc inv')
       = (if (due inv - 1e-2 <=? 0 + rp_amount request)%float
          then paid
          else if (0 <? 0 + rp_amount request)%float
               then partially_paid
               else unpaid).
Proof.
  intros Hcur Hids Hnone Hid Hpay.
  unfold create_invoice, bind, lift, Invoice_new. rewrite Hcur.
  cbn [create_document_invoice ret].
  set (inv := {| inv_institution_id := ci_institution_id payload;
                 inv_student_id := ci_student_id payload;
                 inv_currency := Python.or_str (ci_currency payload) "INR";
                 inv_items := ci_items payload;
                 inv_gst_percent := ci_gst_percent payload;
                 inv_status := unpaid;
                 inv_due_date := ci_due_date payload;
                 inv_metadata := [] |}).
  assert (find_one_invoice (insert_invoice d inv) (fresh d)
          = Some {| _id := fresh d; doc := inv |}) as Hfind.
  { unfold find_one_invoice. cbn [invoice insert_invoice].
    apply find_app_none.
    - eapply Forall_impl; [|exact Hids]. intros x Hx. now apply String.eqb_neq.
    - apply String.eqb_refl. }
  assert (Bson.ObjectId_of_str (rp_invoice_id request) = Some (fresh d)) as Hoid.
  { rewrite Hid. apply ObjectId_of_str_str, length_octets. }
  exists inv, (insert_invoice d inv).
  rewrite (record_payment_invoice request (insert_invoice d inv) pay Hpay
             (fresh d) {| _id := fresh d; doc := inv |} Hoid Hfind).
  eexists. eexists.
  do 6 (split; [reflexivity || exact Hfind|]).
  split; [exact (find_one_invoice_updated _ pay _ _ _ Hfind)|].
  split; [reflexivity|]. split.
  { unfold same_but_status. cbn [doc]. now repeat split. }
  cbn [_id doc inv_status set_status].
  unfold find_payment in *. cbn [payment insert_payment insert_invoice].
  rewrite filter_app, Hid, Hnone. cbn [filter doc app].
  destruct (Payment_new_amount _ _ _ _ _ _ _ Hpay) as (Hamount & -> & _).
  rewrite Hid, String.eqb_refl.
  unfold status_of, paid_total, Python.sum. cbn [map fold_left doc].
  now rewrite Hamount.
Qed.

Lemma create_invoice_then_record_payment_witness :
  exists inv d1 d2 inv',
    create_invoice (Sample.invoice_request 1000 18) (Some Sample.empty)
    = (Return {| id := Bson.str (fresh Sample.empty) |}, Some d1)
    /\ inv_items inv = ci_items (Sample.invoice_request 1000 18)
    /\ inv_gst_percent inv = ci_gst_percent (Sample.invoice_request 1000 18)
    /\ inv_status inv = unpaid
    /\ find_one_invoice d1 (fresh Sample.empty)
       = Some {| _id := fresh Sample.empty; doc := inv |}
    /\ snd (record_payment (Sample.payment_request "inst-a" Sample.first_id 1180)
              (Some d1)) = Some d2
    /\ find_one_invoice d2 (fresh Sample.empty) = Some inv'
    /\ _id inv' = fresh Sample.empty
    /\ same_but_status inv (doc inv')
    /\ inv_status (doc inv')
       = (if (due inv - 1e-2
              <=? 0 + rp_amount (Sample.payment_request "inst-a"
                                   Sample.first_id 1180))%float
          then paid
          else if (0 <? 0 + rp_amount (Sample.payment_request "inst-a"
                                        Sample.first_id 1180))%float
               then partially_paid
               else unpaid).
Proof.
  apply (create_invoice_then_record_payment
           (Sample.invoice_request 1000 18) Sample.empty
           (Sample.payment_request "inst-a" Sample.first_id 1180)
           (doc (Sample.payment_of 1180))).
  - reflexivity.
  - constructor.
  - reflexivity.
  - reflexivity.
  - reflexivity.
Defined.

(** ** Currencies *)

Lemma Forall2_currency (target : option Bson.ObjectId)
    (l l' : list (Document Invoice)) :
  Forall2 (status_write target) l l' ->
  Forall (fun x => Literal currencies (inv_currency (doc x)) = true) l ->
  Forall (fun x => Literal currencies (inv_currency (doc x)) = true) l'.
Proof.
  induction 1 as [|x x' l l' Hx _ IH]; intros Hl; [constructor|].
  inversion Hl as [|? ? Hcur Hrest]; subst. constructor; [|now apply IH].
  destruct Hx as (_ & (_ & _ & Hc & _) & _). now rewrite <- Hc.
Qed.

(** X10. No handler stores an invoice in a currency other than INR and
    USD: if every stored invoice has one of the two, so has every invoice
    of the store that [create_invoice] or [record_payment] leaves, and a
    request without currency, or with an empty one, is stored as INR. *)
Theorem currencies_are_kept d :
  Forall (fun x => Literal currencies (inv_currency (doc x)) = true) (invoice d) ->
  (forall payload,
     exists d',
       snd (create_invoice payload (Some d)) = Some d'
       /\ Forall (fun x => Literal currencies (inv_currency (doc x)) = true)
            (invoice d')
       /\ (ci_currency payload = None \/ ci_currency payload = Some ""
           -> exists inv, invoice d' = invoice d ++ [inv]
                          /\ inv_currency (doc inv) = "INR"))
  /\ (forall request,
        exists d',
          snd (record_payment request (Some d)) = Some d'
          /\ Forall (fun x => Literal currencies (inv_currency (doc x)) = true)
               (invoice d')).
Proof.
  intros Hd. split.
  - intros payload. unfold create_invoice, bind, lift, Invoice_new.
    destruct (Literal currencies (Python.or_str (ci_currency payload) "INR")) eqn:Hcur.
    + eexists. split; [reflexivity|]. cbn [invoice insert_invoice]. split.
      * apply Forall_app. split; [exact Hd|]. now repeat constructor.
      * intros Hempty. eexists. split; [reflexivity|]. cbn [doc inv_currency].
        now destruct Hempty as [-> | ->].
    + exists d. split; [reflexivity|]. split; [exact Hd|].
      intros Hempty. exfalso. destruct Hempty as [H | H]; rewrite H in Hcur;
        discriminate.
  - intros request.
    destruct (record_payment_cases request d)
      as [H | (pay & [H | (oid & st & _ & H)])];
      rewrite H; eexists; (split; [reflexivity|]);
      cbn [invoice insert_payment update_one_invoice]; trivial.
    eapply Forall2_currency; [apply Forall2_update_first | exact Hd].
Qed.

Lemma currencies_are_kept_witness :
  (forall payload,
     exists d',
       snd (create_invoice payload (Some Sample.tuition)) = Some d'
       /\ Forall (fun x => Literal currencies (inv_currency (doc x)) = true)
            (invoice d')
       /\ (ci_currency payload = None \/ ci_currency payload = Some ""
           -> exists inv, invoice d' = invoice Sample.tuition ++ [inv]
                          /\ inv_currency (doc inv) = "INR"))
  /\ (forall request,
        exists d',
          snd (record_payment request (Some Sample.tuition)) = Some d'
          /\ Forall (fun x => Literal currencies (inv_currency (doc x)) = true)
               (invoice d')).
Proof.
  apply (currencies_are_kept Sample.tuition).
  repeat constructor.
Defined.

(** ** Listing invoices *)

Lemma when_given_matches {A} `{Fields A} (key : string) (x : option string) (a : A) :
  matches (when_given key x) a = true
  <-> (forall s, x = Some s -> s <> "" -> field a key = Some s).
Proof.
  unfold when_given, matches. destruct x as [s|].
  - destruct (String.eqb s "") eqn:E.
    + apply String.eqb_eq in E. subst s. simpl. split; [|reflexivity].
      intros _ s [= <-] Hs. now contradiction Hs.
    + apply String.eqb_neq in E. cbn [forallb fst snd]. rewrite andb_true_r. split.
      * intros Hm s' [= <-] _. destruct (field a key) as [v|]; [|discriminate].
        apply String.eqb_eq in Hm. now subst v.
      * intros Hf. rewrite (Hf s eq_refl E). apply String.eqb_refl.
  - simpl. split; [|reflexivity]. intros _ s [=].
Qed.

Lemma matches_app {A} `{Fields A} (q q' : Query) (a : A) :
  matches (q ++ q') a = matches q a && matches q' a.
Proof. unfold matches. apply forallb_app. Qed.

(** X11. On an available store [list_invoices] changes nothing and
    returns, in the store's order, exactly the invoices of the given
    institution, narrowed to the given student when a non-empty
    [student_id] is passed: no invoice of another institution is ever
    listed, and an empty [student_id] narrows nothing. *)
Theorem list_invoices_selects institution_id student_id d :
  exists l,
    list_invoices institution_id student_id (Some d) = (Return l, Some d)
    /\ l = filter (fun x => matches ([("institution_id", institution_id)]
                                     ++ when_given "student_id" student_id) (doc x))
             (invoice d)
    /\ forall x,
         In x l <->
         In x (invoice d)
         /\ inv_institution_id (doc x) = institution_id
         /\ (forall s, student_id = Some s -> s <> "" -> inv_student_id (doc x) = s).
Proof.
  eexists. split; [reflexivity|]. split; [reflexivity|].
  intros x. rewrite filter_In, matches_app, andb_true_iff, when_given_matches.
  cbn [matches forallb fst snd field Invoice_fields String.eqb Ascii.eqb Bool.eqb].
  rewrite andb_true_r, String.eqb_eq.
  split.
  - intros (Hin & Hi & Hs). repeat split; trivial.
    intros s H1 H2. specialize (Hs s H1 H2). now injection Hs.
  - intros (Hin & Hi & Hs). repeat split; trivial.
    intros s H1 H2. now rewrite (Hs s H1 H2).
Qed.

(** X12. A created invoice is listed: after [create_invoice] succeeds,
    [list_invoices] for the request's institution and student returns
    what it returned before followed by the new invoice, whose status is
    [unpaid]. *)
Theorem create_invoice_is_listed payload d :
  Literal currencies (Python.or_str (ci_currency payload) "INR") = true ->
  exists inv d1 l,
    create_invoice payload (Some d)
    = (Return {| id := Bson.str (fresh d) |}, Some d1)
    /\ inv_status inv = unpaid
    /\ fst (list_invoices (ci_institution_id payload)
              (Some (ci_student_id payload)) (Some d)) = Return l
    /\ fst (list_invoices (ci_institution_id payload)
              (Some (ci_student_id payload)) (Some d1))
       = Return (l ++ [{| _id := fresh d; doc := inv |}]).
Proof.
  intros Hcur. unfold create_invoice, bind, lift, Invoice_new. rewrite Hcur.
  cbn [create_document_invoice ret].
  exists {| inv_institution_id := ci_institution_id payload;
            inv_student_id := ci_student_id payload;
            inv_currency := Python.or_str (ci_currency payload) "INR";
            inv_items := ci_items payload;
            inv_gst_percent := ci_gst_percent payload;
            inv_status := unpaid;
            inv_due_date := ci_due_date payload;
            inv_metadata := [] |}.
  do 2 eexists. split; [reflexivity|]. split; [reflexivity|].
  split; [reflexivity|].
  unfold list_invoices, get_documents_invoice. cbn [fst invoice insert_invoice].
  rewrite filter_app. f_equal. f_equal. cbn [filter doc].
  replace (matches _ _) with true; [reflexivity|]. symmetry.
  rewrite matches_app, andb_true_iff, when_given_matches.
  cbn [matches forallb fst snd field Invoice_fields String.eqb Ascii.eqb Bool.eqb
       inv_institution_id inv_student_id].
  rewrite String.eqb_refl. split; [reflexivity|].
  now intros s [= <-] _.
Qed.

Lemma create_invoice_is_listed_witness :
  exists inv d1 l,
    create_invoice (Sample.invoice_request 1000 18) (Some Sample.tuition)
    = (Return {| id := Bson.str (fresh Sample.tuition) |}, Some d1)
    /\ inv_status inv = unpaid
    /\ fst (list_invoices (ci_institution_id (Sample.invoice_request 1000 18))
              (Some (ci_student_id (Sample.invoice_request 1000 18)))
              (Some Sample.tuition)) = Return l
    /\ fst (list_invoices (ci_institution_id (Sample.invoice_request 1000 18))
              (Some (ci_student_id (Sample.invoice_request 1000 18))) (Some d1))
       = Return (l ++ [{| _id := fresh Sample.tuition; doc := inv |}]).
Proof.
  apply (create_invoice_is_listed (Sample.invoice_request 1000 18) Sample.tuition).
  reflexivity.
Defined.


(** ** Users *)

Section Users.

Import Campus.

Lemma NoDup_app_one {A} (l : list A) (a : A) :
  NoDup l -> ~ In a l -> NoDup (l ++ [a]).
Proof.
  intros Hl Ha. induction Hl as [|x l Hx _ IH]; simpl.
  - repeat constructor. now intros [].
  - constructor.
    + rewrite in_app_iff. intros [H|[H|[]]]; [contradiction|].
      apply Ha. now left.
    + apply IH. intros H. apply Ha. now right.
Qed.

Lemma user_filter_matches (e i : string) (u : User) :
  matches [("email", e); ("institution_id", i)] u = true
  <-> u_email u = Some e /\ u_institution_id u = i.
Proof.
  cbn [matches forallb fst snd field User_fields String.eqb Ascii.eqb Bool.eqb].
  rewrite andb_true_r, andb_true_iff, String.eqb_eq. split.
  - intros [He Hi]. split; [|exact Hi].
    destruct (u_email u) as [v|]; [|discriminate].
    apply String.eqb_eq in He. now subst v.
  - intros [-> Hi]. split; [apply String.eqb_refl | exact Hi].
Qed.

Lemma given_Some (x : option string) (e : string) :
  given x = Some e <-> x = Some e /\ e <> "".
Proof.
  unfold given. destruct x as [s|]; [|split; [discriminate | now intros [? _]]].
  destruct (String.eqb s "") eqn:E.
  - apply String.eqb_eq in E. subst s. split; [discriminate|].
    intros [[= <-] Hne]. now contradiction Hne.
  - apply String.eqb_neq in E. split.
    + intros [= <-]. now split.
    + now intros [[= <-] _].
Qed.

Lemma create_user_cases payload d :
  let stored :=
    (Return {| id := Bson.str (next_id d) |},
     Some {| user := user d ++ [{| _id := next_id d; doc := payload |}];
             attendance := attendance d;
             notification := notification d;
             made := N.succ (made d) |}) in
  create_user payload (Some d)
  = match given (u_email payload) with
    | Some e =>
        match find_one_user d [("email", e);
                               ("institution_id", u_institution_id payload)] with
        | Some _ =>
            (Raise (HTTPException 409 "Email already exists in institution"), Some d)
        | None => stored
        end
    | None => stored
    end.
Proof.
  unfold create_user, and_then, handle, fail, unit_.
  destruct (given (u_email payload)) as [e|]; [|reflexivity].
  now destruct (find_one_user d _).
Qed.

Lemma find_one_user_duplicate payload d e :
  given (u_email payload) = Some e ->
  (find_one_user d [("email", e); ("institution_id", u_institution_id payload)]
   = None
   <-> ~ (exists x, In x (user d)
                    /\ u_email (doc x) = Some e
                    /\ u_institution_id (doc x) = u_institution_id payload)).
Proof.
  intros He. unfold find_one_user. split.
  - intros Hfind (x & Hin & H1 & H2).
    pose proof (find_none _ _ Hfind x Hin) as Hno. cbv beta in Hno.
    assert (matches [("email", e); ("institution_id", u_institution_id payload)]
              (doc x) = true) as Hyes by now apply user_filter_matches.
    rewrite Hyes in Hno. discriminate.
  - intros Hnone. destruct (find _ (user d)) as [x|] eqn:Hfind; [|reflexivity].
    exfalso. apply Hnone. apply find_some in Hfind. destruct Hfind as [Hin Hm].
    apply user_filter_matches in Hm. now exists x.
Qed.

(** X13. [create_user] on an available store refuses with HTTP 409, and
    stores nothing, exactly when the request has a non-empty e-mail
    address that a stored user of the same institution already has;
    otherwise it stores the user and returns the new id.  A request
    without address is never refused, and the same address may be used in
    another institution. *)
Theorem create_user_guard payload d :
  ((exists x e, In x (user d)
                /\ given (u_email payload) = Some e
                /\ u_email (doc x) = Some e
                /\ u_institution_id (doc x) = u_institution_id payload)
   /\ create_user payload (Some d)
      = (Raise (HTTPException 409 "Email already exists in institution"), Some d))
  \/ (~ (exists x e, In x (user d)
                     /\ given (u_email payload) = Some e
                     /\ u_email (doc x) = Some e
                     /\ u_institution_id (doc x) = u_institution_id payload)
      /\ create_user payload (Some d)
         = (Return {| id := Bson.str (next_id d) |},
            Some {| user := user d ++ [{| _id := next_id d; doc := payload |}];
                    attendance := attendance d;
                    notification := notification d;
                    made := N.succ (made d) |})).
Proof.
  rewrite (create_user_cases payload d). cbv zeta.
  destruct (given (u_email payload)) as [e|] eqn:He.
  - destruct (find_one_user d _) as [x|] eqn:Hfind.
    + left. split; [|reflexivity].
      apply find_some in Hfind. destruct Hfind as [Hin Hm].
      apply user_filter_matches in Hm. destruct Hm as [H1 H2].
      now exists x, e.
    + right. split; [|reflexivity].
      intros (x & e' & Hin & [= <-] & H1 & H2).
      apply (find_one_user_duplicate payload d e He) in Hfind.
      apply Hfind. now exists x.
  - right. split; [|reflexivity]. intros (x & e' & _ & [=] & _).
Qed.

Lemma email_key_In (u : User) (k : string * string) :
  In k (email_key u)
  <-> given (u_email u) = Some (snd k) /\ u_institution_id u = fst k.
Proof.
  unfold email_key. destruct k as [i e']. cbn [fst snd].
  destruct (given (u_email u)) as [e|]; simpl.
  - split.
    + intros [[= <- <-]|[]]. now split.
    + intros [[= ->] <-]. now left.
  - split; [contradiction | now intros [? _]].
Qed.

(** X14. [create_user] keeps stored users apart: if no two stored users
    share institution and non-empty e-mail address, the same holds of the
    store it leaves, whatever the request. *)
Theorem create_user_keeps_emails_unique payload d :
  emails_unique d ->
  exists d',
    snd (create_user payload (Some d)) = Some d' /\ emails_unique d'.
Proof.
  intros Huniq.
  rewrite (create_user_cases payload d). cbv zeta.
  assert (forall e, given (u_email payload) = Some e ->
            find_one_user d [("email", e);
                             ("institution_id", u_institution_id payload)] = None ->
            emails_unique
              {| user := user d ++ [{| _id := next_id d; doc := payload |}];
                 attendance := attendance d;
                 notification := notification d;
                 made := N.succ (made d) |}) as Hadd.
  { intros e He Hfind. unfold emails_unique in *. cbn [user].
    rewrite flat_map_app. cbn [flat_map doc]. rewrite app_nil_r.
    apply (find_one_user_duplicate payload d e He) in Hfind.
    unfold email_key at 2. rewrite He.
    apply NoDup_app_one; [exact Huniq|].
    intros Hold. apply in_flat_map in Hold. destruct Hold as (x & Hin & Hx).
    apply email_key_In in Hx. cbn [fst snd] in Hx. destruct Hx as [Hxk Hxi].
    apply Hfind. exists x. repeat split; trivial. now apply given_Some in Hxk. }
  destruct (given (u_email payload)) as [e|] eqn:He.
  - destruct (find_one_user d _) eqn:Hfind.
    + now exists d.
    + eexists. split; [reflexivity|]. now apply (Hadd e).
  - eexists. split; [reflexivity|]. unfold emails_unique in *. cbn [user].
    rewrite flat_map_app. cbn [flat_map doc]. unfold email_key at 2.
    rewrite He. now rewrite !app_nil_r.
Qed.

Lemma create_user_keeps_emails_unique_witness :
  exists d',
    snd (create_user (a_user "inst-a" "Bela" (Some "asha@example.org"))
           (Some staffed)) = Some d'
    /\ emails_unique d'.
Proof.
  apply (create_user_keeps_emails_unique
           (a_user "inst-a" "Bela" (Some "asha@example.org")) staffed).
  repeat constructor. simpl. tauto.
Defined.

End Users.

Section UserListing.

Import Campus.

(** X15. On an available store [list_users] changes nothing and returns,
    in the store's order, exactly the users that have the given
    institution, when a non-empty [institution_id] is passed, and the
    given role, when a non-empty [role] is passed.  Without
    [institution_id], or with an empty one, users of every institution
    are returned. *)
Theorem list_users_selects institution_id role d :
  exists l,
    list_users institution_id role (Some d) = (Return l, Some d)
    /\ (forall x,
          In x l <->
          In x (user d)
          /\ (forall i, institution_id = Some i -> i <> "" ->
                u_institution_id (doc x) = i)
          /\ (forall r, role = Some r -> r <> "" -> Role_str (u_role (doc x)) = r))
    /\ (given institution_id = None -> given role = None -> l = user d).
Proof.
  eexists. split; [reflexivity|]. split.
  - intros x. rewrite filter_In, matches_app, andb_true_iff, !when_given_matches.
    cbn [field User_fields String.eqb Ascii.eqb Bool.eqb].
    split.
    + intros (Hin & Hi & Hr). repeat split; trivial.
      * intros i H1 H2. specialize (Hi i H1 H2). now injection Hi.
      * intros r H1 H2. specialize (Hr r H1 H2). now injection Hr.
    + intros (Hin & Hi & Hr). repeat split; trivial.
      * intros i H1 H2. now rewrite (Hi i H1 H2).
      * intros r H1 H2. now rewrite (Hr r H1 H2).
  - intros Hi Hr.
    assert (forall key x, given x = None -> when_given key x = []) as Hnone.
    { intros key [s|]; unfold given, when_given; [|reflexivity].
      now destruct (String.eqb s ""). }
    rewrite (Hnone _ _ Hi), (Hnone _ _ Hr). cbn [app matches forallb].
    induction (user d) as [|x l IH]; [reflexivity|]. cbn [filter]. now rewrite IH.
Qed.

End UserListing.

(** ** Attendance and absence alerts *)

Section AttendanceLog.

Import Campus.

Lemma mark_attendance_step payload d :
  mark_attendance payload (Some d)
  = (Return {| id := Bson.str (next_id d) |},
     Some match a_status payload with
          | absent =>
              {| user := user d;
                 attendance := attendance d ++ [{| _id := next_id d; doc := payload |}];
                 notification :=
                   notification d
                   ++ [{| _id := Bson.octets 12 (N.succ (made d));
                          doc := alert payload |}];
                 made := N.succ (N.succ (made d)) |}
          | _ =>
              {| user := user d;
                 attendance := attendance d ++ [{| _id := next_id d; doc := payload |}];
                 notification := notification d;
                 made := N.succ (made d) |}
          end).
Proof.
  unfold mark_attendance, and_then, handle, unit_, create_document_attendance.
  now destruct (a_status payload).
Qed.

(** X16. [mark_attendance] on an available store always stores the
    record and returns the record's id; it queues one push notification
    "absence_alert", addressed to the student, carrying the date, exactly
    when the status is "absent", and none for "present" and "late".  The
    users are left as they were. *)
Theorem mark_attendance_alerts payload d :
  exists d',
    mark_attendance payload (Some d)
    = (Return {| id := Bson.str (next_id d) |}, Some d')
    /\ attendance d' = attendance d ++ [{| _id := next_id d; doc := payload |}]
    /\ user d' = user d
    /\ map doc (notification d')
       = map doc (notification d)
         ++ match a_status payload with
            | absent =>
                [{| n_institution_id := a_institution_id payload;
                    n_user_id := a_student_id payload;
                    n_channel := push;
                    n_template := "absence_alert";
                    n_payload := [("date", a_date payload)];
                    n_status := queued |}]
            | _ => []
            end.
Proof.
  rewrite mark_attendance_step. eexists. split; [reflexivity|].
  destruct (a_status payload); cbn [attendance user notification];
    repeat split; rewrite ?map_app, ?app_nil_r; reflexivity.
Qed.

Lemma absences_step payload d :
  exists d',
    snd (mark_attendance payload (Some d)) = Some d'
    /\ (map doc (notification d) = map (fun x => alert (doc x)) (absences d) ->
        map doc (notification d') = map (fun x => alert (doc x)) (absences d')).
Proof.
  rewrite mark_attendance_step. eexists. split; [reflexivity|].
  intros Hinv. unfold absences in *.
  destruct (a_status payload) eqn:E; cbn [attendance notification];
    rewrite filter_app; cbn [filter doc]; rewrite E;
    rewrite ?map_app, ?app_nil_r, Hinv; reflexivity.
Qed.

(** X17. The notification log mirrors the absences.  If the stored
    notifications are, in order, the alerts of the stored "absent"
    records, they still are after any run of [mark_attendance] calls; in
    particular there are as many notifications as absences. *)
Theorem alerts_mirror_absences payloads d :
  map doc (notification d) = map (fun x => alert (doc x)) (absences d) ->
  exists d',
    mark_all payloads (Some d) = Some d'
    /\ map doc (notification d') = map (fun x => alert (doc x)) (absences d')
    /\ List.length (notification d') = List.length (absences d').
Proof.
  revert d. induction payloads as [|p rest IH]; intros d Hinv; cbn [mark_all].
  - exists d. repeat split; trivial.
    now rewrite <- (length_map doc), Hinv, length_map.
  - destruct (absences_step p d) as (d1 & -> & Hstep).
    apply IH. now apply Hstep.
Qed.

Lemma alerts_mirror_absences_witness :
  exists d',
    mark_all [a_record "stud-1" "2024-03-01" absent;
              a_record "stud-2" "2024-03-01" late;
              a_record "stud-1" "2024-03-04" absent] (Some nobody) = Some d'
    /\ map doc (notification d') = map (fun x => alert (doc x)) (absences d')
    /\ List.length (notification d') = List.length (absences d').
Proof.
  apply (alerts_mirror_absences
           [a_record "stud-1" "2024-03-01" absent;
            a_record "stud-2" "2024-03-01" late;
            a_record "stud-1" "2024-03-04" absent] nobody).
  reflexivity.
Defined.

(** X18. A marked record is listed: after [mark_attendance],
    [list_attendance] for the record's institution, student and date
    returns what it returned before followed by the new record. *)
Theorem mark_attendance_is_listed payload d :
  exists d' l,
    snd (mark_attendance payload (Some d)) = Some d'
    /\ fst (list_attendance (a_institution_id payload)
              (Some (a_student_id payload)) (Some (a_date payload)) (Some d))
       = Return l
    /\ fst (list_attendance (a_institution_id payload)
              (Some (a_student_id payload)) (Some (a_date payload)) (Some d'))
       = Return (l ++ [{| _id := next_id d; doc := payload |}]).
Proof.
  rewrite mark_attendance_step. do 2 eexists. split; [reflexivity|].
  split; [reflexivity|].
  unfold list_attendance, get_documents_attendance. cbn [fst].
  assert (matches ([("institution_id", a_institution_id payload)]
                   ++ when_given "student_id" (Some (a_student_id payload))
                   ++ when_given "date" (Some (a_date payload))) payload = true)
    as Hm.
  { rewrite !matches_app, !andb_true_iff, !when_given_matches.
    cbn [matches forallb fst snd field Attendance_fields String.eqb Ascii.eqb
         Bool.eqb].
    rewrite String.eqb_refl. repeat split; now intros s [= <-] _. }
  destruct (a_status payload); cbn [attendance]; rewrite filter_app;
    cbn [filter doc]; rewrite Hm; reflexivity.
Qed.

End AttendanceLog.

(** ** The attendance trend *)

Section Trend.

Import Campus.

Lemma insert_perm (x : string) (l : list string) : Permutation (insert x l) (x :: l).
Proof.
  induction l as [|y l IH]; simpl; [reflexivity|].
  destruct (String.leb x y); [reflexivity|].
  rewrite IH. apply perm_swap.
Qed.

Lemma sort_perm (l : list string) : Permutation (sort l) l.
Proof.
  induction l as [|x l IH]; simpl; [reflexivity|].
  rewrite insert_perm. now constructor.
Qed.

Lemma insert_sorted (x : string) (l : list string) :
  Sorted (fun a b => String.leb a b = true) l ->
  Sorted (fun a b => String.leb a b = true) (insert x l).
Proof.
  induction l as [|y l IH]; intros Hl; simpl.
  - repeat constructor.
  - destruct (String.leb x y) eqn:E.
    + constructor; [exact Hl | now constructor].
    + inversion Hl as [|? ? Hrest Hhd]; subst.
      constructor; [now apply IH|].
      assert (String.leb y x = true) as Hyx.
      { destruct (String.leb_total x y) as [H|H]; [congruence | exact H]. }
      destruct l as [|z l]; simpl.
      * now constructor.
      * destruct (String.leb x z); constructor; trivial.
        now inversion Hhd.
Qed.

Lemma sort_sorted (l : list string) :
  Sorted (fun a b => String.leb a b = true) (sort l).
Proof.
  induction l as [|x l IH]; simpl; [constructor | now apply insert_sorted].
Qed.

Lemma leb_ltb (a b : string) :
  String.leb a b = true -> a <> b -> String.ltb a b = true.
Proof.
  unfold String.leb, String.ltb. intros Hle Hne.
  destruct (String.compare a b) eqn:E; try reflexivity; try discriminate.
  apply String.compare_eq_iff in E. contradiction.
Qed.

Lemma sorted_strictly (l : list string) :
  NoDup l ->
  Sorted (fun a b => String.leb a b = true) l ->
  Sorted (fun a b => String.ltb a b = true) l.
Proof.
  induction l as [|x l IH]; intros Hnd Hs; [constructor|].
  inversion Hnd as [|? ? Hx Hnd']; subst.
  inversion Hs as [|? ? Hs' Hhd]; subst.
  constructor; [now apply IH|].
  destruct l as [|y l]; constructor.
  inversion Hhd; subst. apply leb_ltb; trivial.
  intros ->. apply Hx. now left.
Qed.

Lemma point_ids (m : list (Document Attendance)) (ds : list string) :
  map point_id (map (fun dt => group dt m) ds) = ds.
Proof.
  rewrite map_map. cbn [group point_id]. apply map_id.
Qed.

(** X19. The points of [attendance_trend] come in strictly ascending
    order of their date, one point per date, and the dates are exactly
    those of the stored records of the given institution and student. *)
Theorem attendance_trend_dates institution_id student_id d :
  exists series,
    attendance_trend institution_id student_id (Some d) = (Return series, Some d)
    /\ Sorted (fun a b => String.ltb a b = true) (map point_id series)
    /\ forall dt,
         In dt (map point_id series) <->
         exists x, In x (attendance d)
                   /\ a_institution_id (doc x) = institution_id
                   /\ a_student_id (doc x) = student_id
                   /\ a_date (doc x) = dt.
Proof.
  eexists. split; [reflexivity|]. unfold aggregate. cbv zeta.
  rewrite point_ids. split.
  - apply sorted_strictly; [|apply sort_sorted].
    apply Permutation_NoDup with (1 := Permutation_sym (sort_perm _)).
    apply NoDup_nodup.
  - intros dt. split.
    + intros Hin. apply (Permutation_in _ (sort_perm _)) in Hin.
      apply nodup_In, in_map_iff in Hin. destruct Hin as (x & Hdt & Hx).
      unfold matched in Hx. apply filter_In in Hx. destruct Hx as [Hin Hm].
      cbn [matches forallb fst snd field Attendance_fields String.eqb Ascii.eqb
           Bool.eqb] in Hm.
      rewrite andb_true_r, andb_true_iff, !String.eqb_eq in Hm.
      exists x. now repeat split.
    + intros (x & Hin & Hi & Hs & Hdt).
      apply (Permutation_in _ (Permutation_sym (sort_perm _))).
      apply nodup_In, in_map_iff. exists x. split; [exact Hdt|].
      unfold matched. apply filter_In. split; [exact Hin|].
      cbn [matches forallb fst snd field Attendance_fields String.eqb Ascii.eqb
           Bool.eqb].
      rewrite andb_true_r, andb_true_iff, !String.eqb_eq. now split.
Qed.

Lemma filter_length_le {A} (f : A -> bool) (l : list A) :
  List.length (filter f l) <= List.length l.
Proof.
  induction l as [|x l IH]; simpl; [lia|]. destruct (f x); simpl; lia.
Qed.

(** X20. Every point of [attendance_trend] counts at least one record,
    and its number of "present" records is at most its total. *)
Theorem attendance_trend_counts institution_id student_id d :
  exists series,
    attendance_trend institution_id student_id (Some d) = (Return series, Some d)
    /\ Forall (fun p => 1 <= point_total p /\ point_present p <= point_total p)
         series.
Proof.
  eexists. split; [reflexivity|]. unfold aggregate. cbv zeta.
  apply Forall_map, Forall_forall. intros dt Hin. cbn [group point_total point_present].
  split; [|apply filter_length_le].
  apply (Permutation_in _ (sort_perm _)) in Hin.
  apply nodup_In, in_map_iff in Hin. destruct Hin as (x & Hdt & Hx).
  assert (In x (on_date dt (matched institution_id student_id (attendance d))))
    as Hon.
  { unfold on_date. apply filter_In. split; [exact Hx|]. now apply String.eqb_eq. }
  destruct (on_date dt _); [contradiction | simpl; lia].
Qed.

Lemma list_sum_perm (l l' : list nat) :
  Permutation l l' -> list_sum l = list_sum l'.
Proof.
  induction 1; simpl; lia.
Qed.

Lemma list_sum_cons (a : nat) (l : list nat) : list_sum (a :: l) = a + list_sum l.
Proof. reflexivity. Qed.

Lemma indicator_zero (dt : string) (ds : list string) :
  ~ In dt ds ->
  list_sum (map (fun e => if String.eqb dt e then 1 else 0) ds) = 0.
Proof.
  induction ds as [|e ds IH]; intros Hnot; [reflexivity|].
  cbn [map]. rewrite list_sum_cons, IH by (intros H; apply Hnot; now right).
  destruct (String.eqb dt e) eqn:E; [|reflexivity].
  apply String.eqb_eq in E. exfalso. apply Hnot. now left.
Qed.

Lemma indicator_sum (dt : string) (ds : list string) :
  NoDup ds -> In dt ds ->
  list_sum (map (fun e => if String.eqb dt e then 1 else 0) ds) = 1.
Proof.
  induction 1 as [|e ds He Hnd IH]; intros Hin; [contradiction|].
  cbn [map]. rewrite list_sum_cons. destruct (String.eqb dt e) eqn:E.
  - apply String.eqb_eq in E. subst e. now rewrite indicator_zero.
  - apply String.eqb_neq in E. destruct Hin as [Heq|Hin]; [congruence|].
    now rewrite IH.
Qed.

Lemma totals_by_date (m : list (Document Attendance)) (ds : list string) :
  NoDup ds ->
  (forall x, In x m -> In (a_date (doc x)) ds) ->
  list_sum (map (fun dt => List.length (on_date dt m)) ds) = List.length m.
Proof.
  intros Hnd. induction m as [|x m IH]; intros Hall.
  - cbn [on_date filter List.length]. clear. induction ds as [|e ds IH]; [reflexivity|].
    cbn [map]. now rewrite list_sum_cons, IH.
  - assert (forall dt, List.length (on_date dt (x :: m))
                       = (if String.eqb (a_date (doc x)) dt then 1 else 0)
                         + List.length (on_date dt m)) as Hstep.
    { intros dt. unfold on_date. cbn [filter].
      now destruct (String.eqb (a_date (doc x)) dt). }
    rewrite (map_ext _ _ Hstep).
    assert (forall (f g : string -> nat) l,
              list_sum (map (fun dt => f dt + g dt) l)
              = list_sum (map f l) + list_sum (map g l)) as Hsplit.
    { intros f g l. induction l as [|e l IHl]; [reflexivity|].
      cbn [map]. rewrite !list_sum_cons, IHl. lia. }
    rewrite (Hsplit (fun dt => if String.eqb (a_date (doc x)) dt then 1 else 0)
               (fun dt => List.length (on_date dt m))).
    rewrite IH by (intros y Hy; apply Hall; now right).
    now rewrite (indicator_sum (a_date (doc x)) ds Hnd (Hall x (or_introl eq_refl))).
Qed.

(** X21. The totals of the points of [attendance_trend] add up to the
    number of stored records of the given institution and student: each
    such record is counted in exactly one point. *)
Theorem attendance_trend_total institution_id student_id d :
  exists series,
    attendance_trend institution_id student_id (Some d) = (Return series, Some d)
    /\ list_sum (map point_total series)
       = List.length (filter (fun x =>
                                String.eqb (a_institution_id (doc x)) institution_id
                                && String.eqb (a_student_id (doc x)) student_id)
                        (attendance d)).
Proof.
  eexists. split; [reflexivity|]. unfold aggregate. cbv zeta.
  rewrite map_map. cbn [group point_total].
  set (m := matched institution_id student_id (attendance d)).
  rewrite (list_sum_perm _ _ (Permutation_map _ (sort_perm _))).
  rewrite totals_by_date.
  - unfold m, matched. f_equal. apply filter_ext. intros x.
    cbn [matches forallb fst snd field Attendance_fields String.eqb Ascii.eqb
         Bool.eqb].
    now rewrite andb_true_r.
  - apply NoDup_nodup.
  - intros x Hx. apply nodup_In, in_map_iff. now exists x.
Qed.

End Trend.
